(** * Fibonacci retracement backtest: indicator engine and trade simulator

    Shallow embedding of [FibonacciRetracementBacktest.py].  The script is a
    single Streamlit page; what is modelled here is its computational core,
    lines 49-164: validation of the fetched frame, the centred rolling
    extrema, the three retracement levels, [dropna], and the nested
    entry/exit loop with its account bookkeeping; besides, the handling of
    the column labels (lines 38-58) and what the page shows after the loop
    (lines 166-207).

    Modelling conventions.
    - Prices and money are exact rationals ([Q]).  The script computes with
      binary64 floats; an equation between two differently derived numbers
      is stated with [==] (equality of rationals) and holds in exact
      arithmetic.  Module [Binary64] writes the same lines over binary64
      floats, for the statements that turn on rounding.
    - [NaN] in a column of the frame is [None].
    - [st.error(..); st.stop()] is the outcome [Stopped]; the [st.write]
      debugging output, the table, the CSV and the chart are not modelled.
    - A division by zero does not occur on positive prices and a positive
      balance; [Qdiv] returns 0 there, the script would produce inf/nan. *)

From Stdlib Require Import Floats.PrimFloat.
From Stdlib Require Import String.
From Stdlib Require Import QArith Qminmax ZArith List Bool Lia Lqa Sorted.
Import ListNotations.

Open Scope Q_scope.

(** ** Data model *)

(** One row of the fetched frame after [reset_index]: the columns the
    strategy reads.  [Date] is a timestamp, here a day number. *)
Record Bar : Type := mkBar
  { Date : Z;
    High : Q;
    Low : Q;
    Close : Q }.

(** A row after lines 75-91: the swing columns and the three levels, each
    possibly [NaN]. *)
Record Row : Type := mkRow
  { rDate : Z;
    rHigh : Q;
    rLow : Q;
    rClose : Q;
    rSwingHigh : option Q;
    rSwingLow : option Q;
    rFib38 : option Q;
    rFib50 : option Q;
    rFib61 : option Q }.

(** A row after [dropna(subset=["Fib50","SwingHigh","SwingLow"])]: the three
    columns of the subset hold numbers. *)
Record ABar : Type := mkABar
  { aDate : Z;
    aHigh : Q;
    aLow : Q;
    aClose : Q;
    aSwingHigh : Q;
    aSwingLow : Q;
    aFib38 : option Q;
    aFib50 : Q;
    aFib61 : option Q }.

(** One dictionary appended to [transactions] (lines 148-160). *)
Record Trade : Type := mkTrade
  { EntryDate : Z;
    ExitDate : Z;
    EntryPrice : Q;
    ExitPrice : Q;
    SharesBought : Q;
    SharesSold : Q;
    PnL : Q;
    PnLPercent : Q;
    TotalPnL : Q;
    TotalPnLPercent : Q;
    AccountBalance : Q }.

(** The four variables the loop mutates (lines 111-114). *)
Record SimState : Type := mkState
  { account_balance : Q;
    total_pnl : Q;
    total_pnl_percent : Q;
    transactions : list Trade }.

(** Why the page stopped. *)
Inductive StopReason : Type :=
| NoData            (* line 50 *)
| DatasetTooSmall   (* line 69 *)
| SwingsAllNaN      (* line 81 *)
| FibsAllNaN.       (* line 97 *)

Inductive outcome (A : Type) : Type :=
| Stopped (why : StopReason)
| Completed (a : A).
Arguments Stopped {A} why.
Arguments Completed {A} a.

(** ** Comparisons *)

(** [x > y] on numbers. *)
Definition Qgtb (x y : Q) : bool := negb (Qle_bool x y).

(** [x >= y] on numbers. *)
Definition Qgeb (x y : Q) : bool := Qle_bool y x.

(** ** Indicator engine *)

Module Rolling.

(** Bounds of the window of row [i], as pandas' fixed window indexer
    computes them for [rolling(window, center=True)]: the window ends
    [(window - 1) // 2] rows after [i], is [window] rows long, and is
    clipped to the frame. *)
Definition window_bounds (num_values window i : Z) : Z * Z :=
  let offset := ((window - 1) / 2)%Z in
  let e := (i + 1 + offset)%Z in
  let s := (e - window)%Z in
  (Z.max 0 (Z.min num_values s), Z.max 0 (Z.min num_values e)).

(** The observations of the window of row [i]. *)
Definition observations (window : Z) (xs : list Q) (i : nat) : list Q :=
  let '(s, e) := window_bounds (Z.of_nat (length xs)) window (Z.of_nat i) in
  firstn (Z.to_nat (e - s)) (skipn (Z.to_nat s) xs).

(** [agg] over a window; [NaN] when the window holds fewer than
    [min_periods = window] observations. *)
Definition aggregate (agg : Q -> Q -> Q) (window : Z) (obs : list Q)
  : option Q :=
  if (Z.of_nat (length obs) <? window)%Z then None
  else match obs with
       | [] => None
       | x :: rest => Some (fold_left agg rest x)
       end.

(** [xs.rolling(window=window, center=True).agg()]. *)
Definition rolling_center (agg : Q -> Q -> Q) (window : Z) (xs : list Q)
  : list (option Q) :=
  map (fun i => aggregate agg window (observations window xs i))
      (seq 0 (length xs)).

Definition rolling_max := rolling_center Qmax.
Definition rolling_min := rolling_center Qmin.

End Rolling.

(** [SwingHigh - (SwingHigh - SwingLow) * fraction], [NaN] when either swing
    is (lines 89-91). *)
Definition fib_level (fraction : Q) (swing_high swing_low : option Q)
  : option Q :=
  match swing_high, swing_low with
  | Some h, Some l => Some (h - (h - l) * fraction)
  | _, _ => None
  end.

(** A row of the frame once its swing columns are known: lines 89-91 add
    the three levels. *)
Definition with_levels (b : Bar) (swings : option Q * option Q) : Row :=
  let '(sh, sl) := swings in
  {| rDate := Date b; rHigh := High b; rLow := Low b; rClose := Close b;
     rSwingHigh := sh; rSwingLow := sl;
     rFib38 := fib_level 0.382 sh sl;
     rFib50 := fib_level 0.5 sh sl;
     rFib61 := fib_level 0.618 sh sl |}.

(** Lines 75-76 and 89-91: the frame with its five new columns. *)
Definition annotate (data : list Bar) (swing_length : Z) : list Row :=
  let highs := Rolling.rolling_max swing_length (map High data) in
  let lows := Rolling.rolling_min swing_length (map Low data) in
  map (fun '(b, swings) => with_levels b swings)
      (combine data (combine highs lows)).

Definition isnull (x : option Q) : bool :=
  match x with None => true | Some _ => false end.

(** [column.isnull().all()]. *)
Definition all_null (column : list (option Q)) : bool := forallb isnull column.

(** [dropna(subset=["Fib50", "SwingHigh", "SwingLow"])] (line 106). *)
Definition dropna (rows : list Row) : list ABar :=
  flat_map
    (fun r =>
       match rFib50 r, rSwingHigh r, rSwingLow r with
       | Some f, Some h, Some l =>
           [ {| aDate := rDate r; aHigh := rHigh r; aLow := rLow r;
                aClose := rClose r;
                aSwingHigh := h; aSwingLow := l;
                aFib38 := rFib38 r; aFib50 := f; aFib61 := rFib61 r |} ]
       | _, _, _ => []
       end)
    rows.

(** Lines 49-106.  The frame is typed, so the required-columns check of
    lines 54-58 cannot fail and has no counterpart. *)
Definition indicator_engine (data : list Bar) (swing_length : Z)
  : outcome (list ABar) :=
  match data with
  | [] => Stopped NoData
  | _ :: _ =>
      if (Z.of_nat (length data) <? swing_length)%Z
      then Stopped DatasetTooSmall
      else
        let rows := annotate data swing_length in
        if all_null (map rSwingHigh rows) || all_null (map rSwingLow rows)
        then Stopped SwingsAllNaN
        else if all_null (map rFib38 rows) || all_null (map rFib50 rows)
                || all_null (map rFib61 rows)
        then Stopped FibsAllNaN
        else Completed (dropna rows)
  end.

(** ** Trade simulator *)

(** [data.iloc[i]]. *)
Definition iloc (data : list ABar) (i : nat) : option ABar := nth_error data i.

(** The condition of the [if] of lines 120-124. *)
Definition entry_signal (data : list ABar) (i : nat) : bool :=
  (0 <? i)%nat &&
  match iloc data i, iloc data (i - 1) with
  | Some cur, Some prev =>
      Qgtb (aClose cur) (aFib50 cur) && Qle_bool (aClose prev) (aFib50 cur)
  | _, _ => false
  end.

(** The condition of the [if] of line 136. *)
Definition exit_signal (data : list ABar) (j : nat) : bool :=
  match iloc data j with
  | Some b => Qgeb (aHigh b) (aSwingHigh b)
  | None => false
  end.

(** The inner loop of lines 135-164 up to its [break]: the first [j] of
    [range(i + 1, len(data))] whose bar gives the exit signal. *)
Definition find_exit (data : list ABar) (i : nat) : option nat :=
  find (exit_signal data) (seq (i + 1) (length data - (i + 1))).

(** The locals bound at lines 126-129. *)
Record Position : Type := mkPosition
  { shares : Q;
    entry_price : Q;
    entry_date : Z }.

Definition open_position (risk_percent balance : Q) (cur : ABar) : Position :=
  let position_size := (risk_percent / 100) * balance in
  {| shares := position_size / aClose cur;
     entry_price := aClose cur;
     entry_date := aDate cur |}.

(** The position the outer loop opens at bar [i], if any. *)
Definition entry_at (data : list ABar) (risk_percent balance : Q) (i : nat)
  : option Position :=
  if entry_signal data i then
    match iloc data i with
    | Some cur => Some (open_position risk_percent balance cur)
    | None => None
    end
  else None.

(** Lines 137-160: the body of the exit branch. *)
Definition close_position (pos : Position) (ex : ABar) (st : SimState)
  : SimState :=
  let exit_price := aSwingHigh ex in
  let exit_date := aDate ex in
  let pnl := (exit_price - entry_price pos) * shares pos in
  let pnl_percent := (pnl / (entry_price pos * shares pos)) * 100 in
  let balance := account_balance st + pnl in
  let total := total_pnl st + pnl in
  let total_percent := total_pnl_percent st + pnl_percent in
  {| account_balance := balance;
     total_pnl := total;
     total_pnl_percent := total_percent;
     transactions :=
       transactions st ++
       [ {| EntryDate := entry_date pos;
            ExitDate := exit_date;
            EntryPrice := entry_price pos;
            ExitPrice := exit_price;
            SharesBought := shares pos;
            SharesSold := shares pos;
            PnL := pnl;
            PnLPercent := pnl_percent;
            TotalPnL := total;
            TotalPnLPercent := total_percent;
            AccountBalance := balance |} ] |}.

(** One iteration of the outer loop (lines 119-164). *)
Definition step (data : list ABar) (risk_percent : Q) (st : SimState)
  (i : nat) : SimState :=
  match entry_at data risk_percent (account_balance st) i with
  | None => st
  | Some pos =>
      match find_exit data i with
      | None => st
      | Some j =>
          match iloc data j with
          | Some ex => close_position pos ex st
          | None => st
          end
      end
  end.

(** Lines 111-114. *)
Definition initial_state (starting_balance : Q) : SimState :=
  {| account_balance := starting_balance;
     total_pnl := 0;
     total_pnl_percent := 0;
     transactions := [] |}.

(** The state when the outer loop reaches index [i]. *)
Definition state_before (data : list ABar) (starting_balance risk_percent : Q)
  (i : nat) : SimState :=
  fold_left (step data risk_percent) (seq 0 i) (initial_state starting_balance).

(** Lines 111-164: [for i in range(len(data))]. *)
Definition backtest (data : list ABar) (starting_balance risk_percent : Q)
  : SimState :=
  state_before data starting_balance risk_percent (length data).

(** The page from "Validate Data" to the end of the loop. *)
Definition run (data : list Bar) (swing_length : Z)
  (starting_balance risk_percent : Q) : outcome SimState :=
  match indicator_engine data swing_length with
  | Stopped why => Stopped why
  | Completed rows => Completed (backtest rows starting_balance risk_percent)
  end.

(** The bounds of the three input widgets (lines 17, 18 and 63). *)
Definition starting_balance_widget (starting_balance : Q) : Prop :=
  1000 <= starting_balance.

Definition risk_percent_widget (risk_percent : Q) : Prop :=
  1 <= risk_percent <= 100.

Definition swing_length_slider (swing_length : Z) : Prop :=
  (5 <= swing_length <= 50)%Z.

(** ** Reading the trade log *)

(** The balance after the last trade of a log, the starting balance when
    the log is empty: the ["Account Balance"] column read bottom-up. *)
Definition closing_balance (starting_balance : Q) (log : list Trade) : Q :=
  last (map AccountBalance log) starting_balance.

(** Trade [t] was opened on bar [i] and closed on bar [j] of [data]. *)
Definition filled_at (data : list ABar) (p : nat * nat) (t : Trade) : Prop :=
  (fst p < snd p < length data)%nat /\
  exists en ex,
    iloc data (fst p) = Some en /\ iloc data (snd p) = Some ex /\
    EntryDate t = aDate en /\ ExitDate t = aDate ex /\
    EntryPrice t = aClose en /\ ExitPrice t = aSwingHigh ex.

(** The frame is sorted by strictly increasing date. *)
Definition date_ascending (data : list ABar) : Prop :=
  forall a b x y,
    (a < b)%nat -> iloc data a = Some x -> iloc data b = Some y ->
    (aDate x < aDate y)%Z.

(** ** Sample frames *)

(** A bar whose high is 0.5 above and whose low is 1.5 below its close. *)
Definition bar (d : Z) (c : Q) : Bar :=
  {| Date := d; High := c + 0.5; Low := c - 1.5; Close := c |}.

(** A bar with high = low = close. *)
Definition flat_bar (d : Z) (c : Q) : Bar :=
  {| Date := d; High := c; Low := c; Close := c |}.

(** Ten days: a dip, a five-day rally to 13, a drop. *)
Definition rally : list Bar :=
  [bar 1 10; bar 2 9; bar 3 8; bar 4 9; bar 5 10;
   bar 6 11; bar 7 12; bar 8 13; bar 9 8; bar 10 8].

(** [rally] as the simulator receives it with a swing length of 5. *)
Definition rally_rows : list ABar :=
  Eval vm_compute in
    match indicator_engine rally 5 with
    | Completed rows => rows
    | Stopped _ => []
    end.

(** Ten days: a plateau at 20, then prices near 10 while the level falls. *)
Definition falling_levels : list Bar :=
  [flat_bar 1 20; flat_bar 2 20; flat_bar 3 20; flat_bar 4 10; flat_bar 5 12;
   flat_bar 6 11.5; flat_bar 7 10; flat_bar 8 10; flat_bar 9 10;
   flat_bar 10 10].

Definition falling_rows : list ABar :=
  Eval vm_compute in
    match indicator_engine falling_levels 5 with
    | Completed rows => rows
    | Stopped _ => []
    end.

(** Ten days of closes falling by one a day. *)
Definition slide : list Bar :=
  [bar 1 20; bar 2 19; bar 3 18; bar 4 17; bar 5 16;
   bar 6 15; bar 7 14; bar 8 13; bar 9 12; bar 10 11].

Definition slide_rows : list ABar :=
  Eval vm_compute in
    match indicator_engine slide 5 with
    | Completed rows => rows
    | Stopped _ => []
    end.

(** [rally] cut off after day 9: its peak falls in the rows that [dropna]
    removes. *)
Definition open_ended : list Bar :=
  [bar 1 10; bar 2 9; bar 3 8; bar 4 9; bar 5 10;
   bar 6 11; bar 7 12; bar 8 13; bar 9 8].

Definition open_ended_rows : list ABar :=
  Eval vm_compute in
    match indicator_engine open_ended 5 with
    | Completed rows => rows
    | Stopped _ => []
    end.

(** Five days, as many as the smallest swing length of the slider. *)
Definition five_bars : list Bar :=
  [bar 1 10; bar 2 11; bar 3 12; bar 4 11; bar 5 10].

(** ** The engine, row by row *)

(** The running extreme of a non-empty list, as the rolling aggregation
    folds it. *)
Definition window_fold (agg : Q -> Q -> Q) (xs : list Q) : Q :=
  match xs with
  | [] => 0
  | x :: rest => fold_left agg rest x
  end.

(** The [w] bars that start at bar [k]. *)
Definition window_at (data : list Bar) (w k : nat) : list Bar :=
  firstn w (skipn k data).

(** The annotated row of bar [b] when its window is the one that starts at
    bar [k]. *)
Definition swing_row (data : list Bar) (w k : nat) (b : Bar) : ABar :=
  let h := window_fold Qmax (map High (window_at data w k)) in
  let l := window_fold Qmin (map Low (window_at data w k)) in
  {| aDate := Date b; aHigh := High b; aLow := Low b; aClose := Close b;
     aSwingHigh := h; aSwingLow := l;
     aFib38 := Some (h - (h - l) * 0.382);
     aFib50 := h - (h - l) * 0.5;
     aFib61 := Some (h - (h - l) * 0.618) |}.

(** What the engine hands to the simulator, written row by row: the bars
    from index [swing_length / 2] on, as many as there are full windows,
    the [k]-th with the window that starts at bar [k]. *)
Definition swing_rows (data : list Bar) (swing_length : Z) : list ABar :=
  let w := Z.to_nat swing_length in
  let first := Z.to_nat (swing_length / 2) in
  let count := (length data - w + 1)%nat in
  map (fun '(k, b) => swing_row data w k b)
      (combine (seq 0 count) (firstn count (skipn first data))).

(** ** The trade log, row by row *)

(** The pair entry bar / exit bar of bar [i], if bar [i] gives the entry
    signal and some later bar the exit signal. *)
Definition fill_at (data : list ABar) (i : nat) : list (nat * nat) :=
  if entry_signal data i then
    match find_exit data i with
    | Some j => [(i, j)]
    | None => []
    end
  else [].

(** The pairs entry bar / exit bar of a frame, in the order of the entry
    bars. *)
Definition fills (data : list ABar) : list (nat * nat) :=
  flat_map (fill_at data) (seq 0 (length data)).

(** The columns of a record that hold dates and prices. *)
Definition signal_part (t : Trade) : Z * Z * Q * Q :=
  (EntryDate t, ExitDate t, EntryPrice t, ExitPrice t).

(** The value of column [f] in the last record of a log, [start] when the
    log is empty. *)
Definition last_of (f : Trade -> Q) (start : Q) (log : list Trade) : Q :=
  last (map f log) start.

(** The sum of column [f] over a log. *)
Definition sum_of (f : Trade -> Q) (log : list Trade) : Q :=
  fold_right (fun t acc => f t + acc) 0 log.

(** Record [t] is the one that lines 126-160 write after the records
    [before]. *)
Definition follows (starting_balance risk_percent : Q)
  (before : list Trade) (t : Trade) : Prop :=
  SharesBought t
  = (risk_percent / 100 * last_of AccountBalance starting_balance before)
    / EntryPrice t /\
  SharesSold t = SharesBought t /\
  PnL t = (ExitPrice t - EntryPrice t) * SharesBought t /\
  PnLPercent t = PnL t / (EntryPrice t * SharesBought t) * 100 /\
  AccountBalance t = last_of AccountBalance starting_balance before + PnL t /\
  TotalPnL t = last_of TotalPnL 0 before + PnL t /\
  TotalPnLPercent t = last_of TotalPnLPercent 0 before + PnLPercent t.

(** Closes and swing highs of the frame are positive. *)
Definition positive_prices (data : list ABar) : Prop :=
  forall b, In b data -> 0 < aClose b /\ 0 < aSwingHigh b.

(** The raw frame is sorted by strictly increasing date. *)
Definition dates_ascending (data : list Bar) : Prop :=
  forall i j x y,
    (i < j)%nat -> nth_error data i = Some x -> nth_error data j = Some y ->
    (Date x < Date y)%Z.

(** ** Column labels of the fetched frame (lines 38-58) *)

Module Frame.

(** The labels of the columns: plain, or in two levels (field, ticker) as
    the download returns them. *)
Inductive Columns : Type :=
| Plain (labels : list string)
| TwoLevel (labels : list (string * string)).

(** Lines 39-40: [[col[0] for col in data.columns]] when the columns are a
    MultiIndex. *)
Definition flatten (columns : Columns) : list string :=
  match columns with
  | Plain labels => labels
  | TwoLevel labels => map fst labels
  end.

(** Line 46: [rename(columns={"Adj Close": "Close"})]. *)
Definition rename (labels : list string) : list string :=
  map (fun c => if String.eqb c "Adj Close" then "Close"%string else c)
      labels.

(** [col not in data.columns]. *)
Definition has_column (labels : list string) (col : string) : bool :=
  existsb (String.eqb col) labels.

Definition required_columns : list string :=
  ["High"; "Low"; "Close"]%string.

(** Lines 54-58: the first required column that the frame lacks, for which
    the page reports "Missing column" and stops. *)
Definition missing_column (labels : list string) : option string :=
  find (fun col => negb (has_column labels col)) required_columns.

(** Line 45: [reset_index] inserts the index, named [index_name], as the
    first column; the insertion raises when a column of that name exists
    (the page then shows "An unexpected error occurred", line 210). *)
Definition reset_index (index_name : string) (labels : list string)
  : option (list string) :=
  if has_column labels index_name then None else Some (index_name :: labels).

(** How lines 38-58 end on a frame: the insertion of line 45 raised, the
    frame is empty (line 49), a required column is missing (line 57), or
    the page goes on to line 60. *)
Inductive ColumnCheck : Type :=
| InsertRaised
| EmptyFrame
| MissingColumn (col : string)
| ColumnsOk.

(** Lines 38-58 on the labels and the number of rows of the fetched frame.
    Once the index is a column the frame has a column, so [data.empty]
    means that it has no row. *)
Definition validate (index_name : string) (columns : Columns) (rows : nat)
  : ColumnCheck :=
  match reset_index index_name (flatten columns) with
  | None => InsertRaised
  | Some labels =>
      if (rows =? 0)%nat then EmptyFrame
      else
        match missing_column (rename labels) with
        | Some col => MissingColumn col
        | None => ColumnsOk
        end
  end.

(** How many columns bear the label [col]. *)
Definition count_label (labels : list string) (col : string) : nat :=
  count_occ string_dec labels col.

End Frame.

(** ** What the page shows after the loop (lines 166-207) *)

(** Either the warning of line 169, or the table, the two curves of the
    chart (both drawn against the entry dates) and the four figures of the
    summary: starting balance, ending balance, total P/L, total P/L%. *)
Inductive Report : Type :=
| NoTransactions
| Results (table : list Trade) (pnl_curve balance_curve : list (Z * Q))
    (summary : Q * Q * Q * Q).

Definition report (starting_balance : Q) (st : SimState) : Report :=
  match transactions st with
  | [] => NoTransactions
  | _ :: _ =>
      Results (transactions st)
        (map (fun t => (EntryDate t, TotalPnL t)) (transactions st))
        (map (fun t => (EntryDate t, AccountBalance t)) (transactions st))
        (starting_balance, account_balance st, total_pnl st,
         total_pnl_percent st)
  end.

(** ** The same lines in binary64 *)

Set Warnings "-inexact-float".

(** The definitions above compute in exact rationals.  This module writes
    the same lines with the program's own numbers, IEEE 754 binary64
    rounded to nearest-even (Python floats and numpy float64), so that a
    run can be evaluated to the last bit. *)
Module Binary64.

Record Bar : Type := mkBar
  { Date : Z;
    High : float;
    Low : float;
    Close : float }.

Record Row : Type := mkRow
  { rDate : Z;
    rHigh : float;
    rLow : float;
    rClose : float;
    rSwingHigh : option float;
    rSwingLow : option float;
    rFib38 : option float;
    rFib50 : option float;
    rFib61 : option float }.

Record ABar : Type := mkABar
  { aDate : Z;
    aHigh : float;
    aLow : float;
    aClose : float;
    aSwingHigh : float;
    aSwingLow : float;
    aFib38 : option float;
    aFib50 : float;
    aFib61 : option float }.

Record Trade : Type := mkTrade
  { EntryDate : Z;
    ExitDate : Z;
    EntryPrice : float;
    ExitPrice : float;
    SharesBought : float;
    SharesSold : float;
    PnL : float;
    PnLPercent : float;
    TotalPnL : float;
    TotalPnLPercent : float;
    AccountBalance : float }.

Record SimState : Type := mkState
  { account_balance : float;
    total_pnl : float;
    total_pnl_percent : float;
    transactions : list Trade }.

(** Largest and smallest of two numbers. *)
Definition fmax (x y : float) : float := if PrimFloat.ltb x y then y else x.
Definition fmin (x y : float) : float := if PrimFloat.ltb y x then y else x.

Definition observations (window : Z) (xs : list float) (i : nat)
  : list float :=
  let '(s, e) :=
    Rolling.window_bounds (Z.of_nat (length xs)) window (Z.of_nat i) in
  firstn (Z.to_nat (e - s)) (skipn (Z.to_nat s) xs).

Definition aggregate (agg : float -> float -> float) (window : Z)
  (obs : list float) : option float :=
  if (Z.of_nat (length obs) <? window)%Z then None
  else match obs with
       | [] => None
       | x :: rest => Some (fold_left agg rest x)
       end.

Definition rolling_center (agg : float -> float -> float) (window : Z)
  (xs : list float) : list (option float) :=
  map (fun i => aggregate agg window (observations window xs i))
      (seq 0 (length xs)).

(** Lines 89-91. *)
Definition fib_level (fraction : float) (swing_high swing_low : option float)
  : option float :=
  match swing_high, swing_low with
  | Some h, Some l => Some (h - (h - l) * fraction)%float
  | _, _ => None
  end.

Definition with_levels (b : Bar) (swings : option float * option float)
  : Row :=
  let '(sh, sl) := swings in
  {| rDate := Date b; rHigh := High b; rLow := Low b; rClose := Close b;
     rSwingHigh := sh; rSwingLow := sl;
     rFib38 := fib_level 0.382%float sh sl;
     rFib50 := fib_level 0.5%float sh sl;
     rFib61 := fib_level 0.618%float sh sl |}.

(** Lines 75-76 and 89-91. *)
Definition annotate (data : list Bar) (swing_length : Z) : list Row :=
  let highs := rolling_center fmax swing_length (map High data) in
  let lows := rolling_center fmin swing_length (map Low data) in
  map (fun '(b, swings) => with_levels b swings)
      (combine data (combine highs lows)).

Definition isnull (x : option float) : bool :=
  match x with None => true | Some _ => false end.

Definition all_null (column : list (option float)) : bool :=
  forallb isnull column.

(** Line 106. *)
Definition dropna (rows : list Row) : list ABar :=
  flat_map
    (fun r =>
       match rFib50 r, rSwingHigh r, rSwingLow r with
       | Some f, Some h, Some l =>
           [ {| aDate := rDate r; aHigh := rHigh r; aLow := rLow r;
                aClose := rClose r;
                aSwingHigh := h; aSwingLow := l;
                aFib38 := rFib38 r; aFib50 := f; aFib61 := rFib61 r |} ]
       | _, _, _ => []
       end)
    rows.

(** Lines 49-106. *)
Definition indicator_engine (data : list Bar) (swing_length : Z)
  : outcome (list ABar) :=
  match data with
  | [] => Stopped NoData
  | _ :: _ =>
      if (Z.of_nat (length data) <? swing_length)%Z
      then Stopped DatasetTooSmall
      else
        let rows := annotate data swing_length in
        if all_null (map rSwingHigh rows) || all_null (map rSwingLow rows)
        then Stopped SwingsAllNaN
        else if all_null (map rFib38 rows) || all_null (map rFib50 rows)
                || all_null (map rFib61 rows)
        then Stopped FibsAllNaN
        else Completed (dropna rows)
  end.

Definition iloc (data : list ABar) (i : nat) : option ABar := nth_error data i.

(** Lines 120-124. *)
Definition entry_signal (data : list ABar) (i : nat) : bool :=
  (0 <? i)%nat &&
  match iloc data i, iloc data (i - 1) with
  | Some cur, Some prev =>
      PrimFloat.ltb (aFib50 cur) (aClose cur)
      && PrimFloat.leb (aClose prev) (aFib50 cur)
  | _, _ => false
  end.

(** Line 136. *)
Definition exit_signal (data : list ABar) (j : nat) : bool :=
  match iloc data j with
  | Some b => PrimFloat.leb (aSwingHigh b) (aHigh b)
  | None => false
  end.

Definition find_exit (data : list ABar) (i : nat) : option nat :=
  find (exit_signal data) (seq (i + 1) (length data - (i + 1))).

Record Position : Type := mkPosition
  { shares : float;
    entry_price : float;
    entry_date : Z }.

(** Lines 126-129. *)
Definition open_position (risk_percent balance : float) (cur : ABar)
  : Position :=
  let position_size := ((risk_percent / 100) * balance)%float in
  {| shares := (position_size / aClose cur)%float;
     entry_price := aClose cur;
     entry_date := aDate cur |}.

Definition entry_at (data : list ABar) (risk_percent balance : float)
  (i : nat) : option Position :=
  if entry_signal data i then
    match iloc data i with
    | Some cur => Some (open_position risk_percent balance cur)
    | None => None
    end
  else None.

(** Lines 137-160. *)
Definition close_position (pos : Position) (ex : ABar) (st : SimState)
  : SimState :=
  let exit_price := aSwingHigh ex in
  let exit_date := aDate ex in
  let pnl := ((exit_price - entry_price pos) * shares pos)%float in
  let pnl_percent :=
    ((pnl / (entry_price pos * shares pos)) * 100)%float in
  let balance := (account_balance st + pnl)%float in
  let total := (total_pnl st + pnl)%float in
  let total_percent := (total_pnl_percent st + pnl_percent)%float in
  {| account_balance := balance;
     total_pnl := total;
     total_pnl_percent := total_percent;
     transactions :=
       transactions st ++
       [ {| EntryDate := entry_date pos;
            ExitDate := exit_date;
            EntryPrice := entry_price pos;
            ExitPrice := exit_price;
            SharesBought := shares pos;
            SharesSold := shares pos;
            PnL := pnl;
            PnLPercent := pnl_percent;
            TotalPnL := total;
            TotalPnLPercent := total_percent;
            AccountBalance := balance |} ] |}.

(** Lines 119-164. *)
Definition step (data : list ABar) (risk_percent : float) (st : SimState)
  (i : nat) : SimState :=
  match entry_at data risk_percent (account_balance st) i with
  | None => st
  | Some pos =>
      match find_exit data i with
      | None => st
      | Some j =>
          match iloc data j with
          | Some ex => close_position pos ex st
          | None => st
          end
      end
  end.

(** Lines 111-114. *)
Definition initial_state (starting_balance : float) : SimState :=
  {| account_balance := starting_balance;
     total_pnl := 0%float;
     total_pnl_percent := 0%float;
     transactions := [] |}.

Definition state_before (data : list ABar)
  (starting_balance risk_percent : float) (i : nat) : SimState :=
  fold_left (step data risk_percent) (seq 0 i) (initial_state starting_balance).

(** Lines 111-164. *)
Definition backtest (data : list ABar) (starting_balance risk_percent : float)
  : SimState :=
  state_before data starting_balance risk_percent (length data).

Definition run (data : list Bar) (swing_length : Z)
  (starting_balance risk_percent : float) : outcome SimState :=
  match indicator_engine data swing_length with
  | Stopped why => Stopped why
  | Completed rows => Completed (backtest rows starting_balance risk_percent)
  end.

(** A bar whose high is 0.5 above and whose low is 1.5 below its close. *)
Definition bar (d : Z) (c : float) : Bar :=
  {| Date := d; High := (c + 0.5)%float; Low := (c - 1.5)%float;
     Close := c |}.

(** Ten days: a dip, a five-day rally to 26.3, a drop. *)
Definition drift : list Bar :=
  [bar 1 20.1; bar 2 18.3; bar 3 16.2; bar 4 18.1; bar 5 20.3;
   bar 6 22.2; bar 7 24.4; bar 8 26.3; bar 9 16.4; bar 10 16.5]%float.

End Binary64.

(** ** Basic facts *)

Lemma Qgtb_lt (x y : Q) : Qgtb x y = true <-> y < x.
Proof.
  unfold Qgtb. rewrite negb_true_iff. split.
  - intros H. apply Qnot_le_lt. intros Hle.
    apply Qle_bool_iff in Hle. congruence.
  - intros H. destruct (Qle_bool x y) eqn:E; [|reflexivity].
    apply Qle_bool_iff in E. exfalso. exact (Qlt_not_le _ _ H E).
Qed.

Lemma Qgeb_le (x y : Q) : Qgeb x y = true <-> y <= x.
Proof. unfold Qgeb. apply Qle_bool_iff. Qed.

Lemma Qgeb_lt (x y : Q) : Qgeb x y = false <-> x < y.
Proof.
  unfold Qgeb. split.
  - intros H. apply Qnot_le_lt. intros Hle.
    apply Qle_bool_iff in Hle. congruence.
  - intros H. destruct (Qle_bool y x) eqn:E; [|reflexivity].
    apply Qle_bool_iff in E. exfalso. exact (Qlt_not_le _ _ H E).
Qed.

Lemma state_before_0 data sb rp :
  state_before data sb rp 0 = initial_state sb.
Proof. reflexivity. Qed.

Lemma state_before_S data sb rp i :
  state_before data sb rp (S i) = step data rp (state_before data sb rp i) i.
Proof.
  unfold state_before. rewrite seq_S, fold_left_app. reflexivity.
Qed.

(** The entry signal, read as a proposition on the two rows it inspects. *)
Lemma entry_signal_true data i :
  entry_signal data i = true <->
  (1 <= i)%nat /\
  exists cur prev,
    iloc data i = Some cur /\ iloc data (i - 1) = Some prev /\
    aFib50 cur < aClose cur /\ aClose prev <= aFib50 cur.
Proof.
  unfold entry_signal. rewrite andb_true_iff, Nat.ltb_lt. split.
  - intros [Hi H]. split; [lia|].
    destruct (iloc data i) as [cur|]; [|discriminate].
    destruct (iloc data (i - 1)) as [prev|]; [|discriminate].
    apply andb_true_iff in H. destruct H as [H1 H2].
    exists cur, prev. repeat split; trivial.
    + now apply Qgtb_lt.
    + now apply Qle_bool_iff.
  - intros [Hi (cur & prev & Hc & Hp & H1 & H2)]. split; [lia|].
    rewrite Hc, Hp. apply andb_true_iff. split.
    + now apply Qgtb_lt.
    + now apply Qle_bool_iff.
Qed.

Lemma entry_at_some data rp bal i pos :
  entry_at data rp bal i = Some pos <->
  entry_signal data i = true /\
  exists cur, iloc data i = Some cur /\ pos = open_position rp bal cur.
Proof.
  unfold entry_at. split.
  - destruct (entry_signal data i); [|discriminate].
    destruct (iloc data i) as [cur|]; [|discriminate].
    intros [= <-]. split; [reflexivity|]. now exists cur.
  - intros [-> (cur & -> & ->)]. reflexivity.
Qed.

Lemma entry_at_none data rp bal i :
  entry_at data rp bal i = None <-> entry_signal data i = false.
Proof.
  unfold entry_at. split.
  - destruct (entry_signal data i) eqn:E; [|reflexivity].
    apply entry_signal_true in E. destruct E as [_ (cur & _ & -> & _)].
    discriminate.
  - intros ->. reflexivity.
Qed.

(** [find] over a range returns the first index that satisfies the test. *)
Lemma find_seq_some (f : nat -> bool) : forall len start j,
  find f (seq start len) = Some j <->
  (start <= j < start + len)%nat /\ f j = true /\
  forall k, (start <= k < j)%nat -> f k = false.
Proof.
  induction len as [|len IH]; intros start j; simpl.
  - split; [discriminate|]. intros [H _]. lia.
  - destruct (f start) eqn:E.
    + split.
      * intros [= <-]. split; [lia|]. split; [exact E|]. intros k Hk. lia.
      * intros (Hr & Hj & Hfirst).
        destruct (Nat.eq_dec start j) as [->|Hne]; [reflexivity|].
        rewrite (Hfirst start) in E by lia. discriminate.
    + rewrite IH. split.
      * intros (Hr & Hj & Hfirst). split; [lia|]. split; [exact Hj|].
        intros k Hk. destruct (Nat.eq_dec k start) as [->|Hne]; trivial.
        apply Hfirst. lia.
      * intros (Hr & Hj & Hfirst).
        assert (start <> j) by (intros ->; congruence).
        split; [lia|]. split; [exact Hj|]. intros k Hk. apply Hfirst. lia.
Qed.

Lemma find_seq_none (f : nat -> bool) : forall len start,
  find f (seq start len) = None <->
  forall k, (start <= k < start + len)%nat -> f k = false.
Proof.
  induction len as [|len IH]; intros start; simpl.
  - split; [intros _ k Hk; lia | reflexivity].
  - destruct (f start) eqn:E.
    + split; [discriminate|]. intros H. rewrite H in E by lia. discriminate.
    + rewrite IH. split.
      * intros H k Hk. destruct (Nat.eq_dec k start) as [->|Hne]; trivial.
        apply H. lia.
      * intros H k Hk. apply H. lia.
Qed.

Lemma find_exit_some data i j :
  find_exit data i = Some j <->
  (i < j < length data)%nat /\ exit_signal data j = true /\
  forall k, (i < k < j)%nat -> exit_signal data k = false.
Proof.
  unfold find_exit. rewrite find_seq_some. split.
  - intros (Hr & Hj & Hfirst). split; [lia|]. split; [exact Hj|].
    intros k Hk. apply Hfirst. lia.
  - intros (Hr & Hj & Hfirst). split; [lia|]. split; [exact Hj|].
    intros k Hk. apply Hfirst. lia.
Qed.

Lemma find_exit_none data i :
  find_exit data i = None <->
  forall k, (i < k < length data)%nat -> exit_signal data k = false.
Proof.
  unfold find_exit. rewrite find_seq_none. split.
  - intros H k Hk. apply H. lia.
  - intros H k Hk. apply H. lia.
Qed.

Lemma exit_signal_true data j :
  exit_signal data j = true <->
  exists ex, iloc data j = Some ex /\ aSwingHigh ex <= aHigh ex.
Proof.
  unfold exit_signal. split.
  - destruct (iloc data j) as [ex|]; [|discriminate].
    intros H. exists ex. split; trivial. now apply Qgeb_le.
  - intros (ex & -> & H). now apply Qgeb_le.
Qed.

Lemma exit_signal_false data k b :
  iloc data k = Some b ->
  (exit_signal data k = false <-> aHigh b < aSwingHigh b).
Proof. unfold exit_signal. intros ->. apply Qgeb_lt. Qed.

Lemma iloc_in_range data i :
  (i < length data)%nat -> exists b, iloc data i = Some b.
Proof.
  intros H. unfold iloc. destruct (nth_error data i) as [b|] eqn:E.
  - now exists b.
  - apply nth_error_None in E. lia.
Qed.

(** The two ways an iteration of the outer loop ends. *)
Lemma step_cases data rp st i :
  step data rp st i = st \/
  exists cur j ex,
    entry_signal data i = true /\ iloc data i = Some cur /\
    find_exit data i = Some j /\ iloc data j = Some ex /\
    step data rp st i =
    close_position (open_position rp (account_balance st) cur) ex st.
Proof.
  unfold step.
  destruct (entry_at data rp (account_balance st) i) as [pos|] eqn:E;
    [|now left].
  apply entry_at_some in E. destruct E as [Hs (cur & Hc & ->)].
  destruct (find_exit data i) as [j|] eqn:F; [|now left].
  destruct (iloc data j) as [ex|] eqn:X; [|now left].
  right. exists cur, j, ex. repeat split; trivial.
Qed.

(** Closed comparisons between rationals. *)
Ltac qclosed :=
  repeat match goal with
         | |- _ /\ _ => split
         | |- _ < _ => vm_compute; reflexivity
         | |- _ <= _ => vm_compute; discriminate
         | |- _ == _ => vm_compute; reflexivity
         | |- ~ _ == _ => vm_compute; discriminate
         | |- (_ < _)%nat => vm_compute; lia
         | |- (_ <= _)%nat => vm_compute; lia
         | |- (_ < _)%Z => vm_compute; reflexivity
         | |- (_ <= _)%Z => vm_compute; discriminate
         | |- _ = _ => vm_compute; reflexivity
         end.

Lemma rally_rows_engine : indicator_engine rally 5 = Completed rally_rows.
Proof. vm_compute. reflexivity. Qed.

Lemma falling_rows_engine :
  indicator_engine falling_levels 5 = Completed falling_rows.
Proof. vm_compute. reflexivity. Qed.

Lemma slide_rows_engine : indicator_engine slide 5 = Completed slide_rows.
Proof. vm_compute. reflexivity. Qed.

(** ** The entry rule (C1) *)

(** C1, as amended.  At every index [i >= 1] the simulator opens a position
    exactly when [close[i] > fib50[i]] and [close[i-1] <= fib50[i]]: the
    previous close is compared with the level of the current bar.  On
    trigger the position has [(risk_percent / 100 * balance) / close[i]]
    shares, entry price [close[i]] and entry date [date[i]], where
    [balance] is the account balance when the loop reaches [i]. *)
Theorem entry_rule_current_level :
  forall data starting_balance risk_percent i cur prev,
    (1 <= i)%nat ->
    iloc data i = Some cur ->
    iloc data (i - 1) = Some prev ->
    let balance :=
      account_balance (state_before data starting_balance risk_percent i) in
    (entry_at data risk_percent balance i <> None <->
     aFib50 cur < aClose cur /\ aClose prev <= aFib50 cur) /\
    (aFib50 cur < aClose cur -> aClose prev <= aFib50 cur ->
     entry_at data risk_percent balance i =
     Some {| shares := (risk_percent / 100 * balance) / aClose cur;
             entry_price := aClose cur;
             entry_date := aDate cur |}).
Proof.
  intros data sb rp i cur prev Hi Hc Hp balance.
  assert (Hsig : entry_signal data i = true <->
                 aFib50 cur < aClose cur /\ aClose prev <= aFib50 cur).
  { rewrite entry_signal_true. split.
    - intros [_ (c & p & Hc' & Hp' & H1 & H2)].
      rewrite Hc in Hc'. rewrite Hp in Hp'.
      injection Hc' as <-. injection Hp' as <-. now split.
    - intros [H1 H2]. split; [exact Hi|]. exists cur, prev. now repeat split. }
  split.
  - rewrite <- Hsig. split.
    + intros H. destruct (entry_signal data i) eqn:E; [reflexivity|].
      exfalso. apply H. now apply entry_at_none.
    + intros H Hnone. apply entry_at_none in Hnone. congruence.
  - intros H1 H2. apply entry_at_some. split.
    + apply Hsig. now split.
    + exists cur. split; [exact Hc|reflexivity].
Qed.

Lemma entry_rule_current_level_witness :
  exists cur prev,
    iloc rally_rows 2 = Some cur /\ iloc rally_rows 1 = Some prev /\
    aFib50 cur < aClose cur /\ aClose prev <= aFib50 cur /\
    entry_at rally_rows 5
      (account_balance (state_before rally_rows 10000 5 2)) 2 =
    Some {| shares :=
              (5 / 100 * account_balance (state_before rally_rows 10000 5 2))
              / aClose cur;
            entry_price := aClose cur;
            entry_date := aDate cur |}.
Proof.
  eexists. eexists.
  split; [reflexivity|]. split; [reflexivity|].
  split; [vm_compute; reflexivity|]. split; [vm_compute; discriminate|].
  refine (proj2 (entry_rule_current_level rally_rows 10000 5 2 _ _ _ _ _) _ _).
  - lia.
  - reflexivity.
  - reflexivity.
  - vm_compute; reflexivity.
  - vm_compute; discriminate.
Defined.

(** C1 as stated fails: on [falling_levels] the close of day 6 is above its
    level and the close of day 5 is not above the level of day 5, yet no
    position is opened on day 6, because the close of day 5 is above the
    level of day 6. *)
Lemma entry_rule_previous_level_fails :
  indicator_engine falling_levels 5 = Completed falling_rows /\
  exists cur prev,
    iloc falling_rows 3 = Some cur /\ iloc falling_rows 2 = Some prev /\
    aDate cur = 6%Z /\ aDate prev = 5%Z /\
    aFib50 cur < aClose cur /\ aClose prev <= aFib50 prev /\
    entry_at falling_rows 5
      (account_balance (state_before falling_rows 10000 5 3)) 3 = None.
Proof.
  split; [exact falling_rows_engine|].
  eexists. eexists.
  split; [reflexivity|]. split; [reflexivity|].
  split; [reflexivity|]. split; [reflexivity|].
  split; [vm_compute; reflexivity|]. split; [vm_compute; discriminate|].
  vm_compute. reflexivity.
Qed.

(** ** The exit search (C5) *)

(** C5.  When a position is opened at index [i], the trade closes at the
    first [j > i] with [high[j] >= swingHigh[j]]: exit price [swingHigh[j]],
    exit date [date[j]], [pnl = (exitPrice - entryPrice) * shares] and
    [pnlPercent = pnl / (entryPrice * shares) * 100]; one record is appended
    and balance and totals are increased.  When no bar after [i] qualifies,
    the state is left as it was. *)
Theorem exit_search :
  forall data risk_percent st i cur,
    entry_signal data i = true ->
    iloc data i = Some cur ->
    let entryPrice := aClose cur in
    let nshares := (risk_percent / 100 * account_balance st) / aClose cur in
    (forall j ex,
        (i < j < length data)%nat ->
        iloc data j = Some ex ->
        aSwingHigh ex <= aHigh ex ->
        (forall k b, (i < k < j)%nat -> iloc data k = Some b ->
                     aHigh b < aSwingHigh b) ->
        let exitPrice := aSwingHigh ex in
        let pnl := (exitPrice - entryPrice) * nshares in
        let pnlPercent := pnl / (entryPrice * nshares) * 100 in
        step data risk_percent st i =
        {| account_balance := account_balance st + pnl;
           total_pnl := total_pnl st + pnl;
           total_pnl_percent := total_pnl_percent st + pnlPercent;
           transactions :=
             transactions st ++
             [ {| EntryDate := aDate cur;
                  ExitDate := aDate ex;
                  EntryPrice := entryPrice;
                  ExitPrice := exitPrice;
                  SharesBought := nshares;
                  SharesSold := nshares;
                  PnL := pnl;
                  PnLPercent := pnlPercent;
                  TotalPnL := total_pnl st + pnl;
                  TotalPnLPercent := total_pnl_percent st + pnlPercent;
                  AccountBalance := account_balance st + pnl |} ] |}) /\
    ((forall k b, (i < k < length data)%nat -> iloc data k = Some b ->
                  aHigh b < aSwingHigh b) ->
     step data risk_percent st i = st).
Proof.
  intros data rp st i cur Hs Hc entryPrice nshares.
  assert (He : entry_at data rp (account_balance st) i =
               Some (open_position rp (account_balance st) cur)).
  { apply entry_at_some. split; [exact Hs|]. now exists cur. }
  split.
  - intros j ex Hj Hex Hhit Hfirst exitPrice pnl pnlPercent.
    assert (Hf : find_exit data i = Some j).
    { apply find_exit_some. split; [exact Hj|]. split.
      - apply exit_signal_true. now exists ex.
      - intros k Hk. destruct (iloc_in_range data k) as [b Hb]; [lia|].
        apply (exit_signal_false data k b Hb). now apply (Hfirst k b). }
    unfold step. rewrite He, Hf, Hex. reflexivity.
  - intros Hnone.
    assert (Hf : find_exit data i = None).
    { apply find_exit_none. intros k Hk.
      destruct (iloc_in_range data k) as [b Hb]; [lia|].
      apply (exit_signal_false data k b Hb). now apply (Hnone k b). }
    unfold step. rewrite He, Hf. reflexivity.
Qed.

Lemma exit_search_witness :
  (exists t,
      transactions (step rally_rows 5 (initial_state 10000) 2) = [t] /\
      EntryDate t = 5%Z /\ ExitDate t = 8%Z /\
      EntryPrice t == 10 /\ ExitPrice t == 13.5 /\
      SharesBought t == 50 /\ PnL t == 175 /\ PnLPercent t == 35 /\
      AccountBalance t == 10175) /\
  step open_ended_rows 5 (initial_state 10000) 2 = initial_state 10000.
Proof.
  split.
  - eexists. split.
    + rewrite (proj1 (exit_search rally_rows 5 (initial_state 10000) 2 _
                        eq_refl eq_refl)
                 5%nat _ ltac:(vm_compute; lia) eq_refl
                 ltac:(vm_compute; discriminate)).
      * reflexivity.
      * intros k b Hk Hb.
        assert (k = 3 \/ k = 4)%nat as [-> | ->] by lia;
          vm_compute in Hb; injection Hb as <-; vm_compute; reflexivity.
    + qclosed.
  - apply (proj2 (exit_search open_ended_rows 5 (initial_state 10000) 2 _
                    eq_refl eq_refl)).
    intros k b Hk Hb. change (length open_ended_rows) with 5%nat in Hk.
    assert (k = 3 \/ k = 4)%nat as [-> | ->] by lia;
      vm_compute in Hb; injection Hb as <-; vm_compute; reflexivity.
Defined.

(** ** Conservation (C3) *)

Lemma balance_is_start_plus_total data sb rp : forall k,
  account_balance (state_before data sb rp k)
  == sb + total_pnl (state_before data sb rp k).
Proof.
  induction k as [|k IH].
  - rewrite state_before_0. simpl. ring.
  - rewrite state_before_S.
    destruct (step_cases data rp (state_before data sb rp k) k)
      as [-> | (cur & j & ex & _ & _ & _ & _ & ->)].
    + exact IH.
    + simpl. rewrite IH. ring.
Qed.

Lemma state_before_S_b64 data sb rp i :
  Binary64.state_before data sb rp (S i)
  = Binary64.step data rp (Binary64.state_before data sb rp i) i.
Proof.
  unfold Binary64.state_before. rewrite seq_S, fold_left_app. reflexivity.
Qed.

Lemma step_cases_b64 data rp st i :
  Binary64.step data rp st i = st \/
  exists pos ex,
    Binary64.step data rp st i = Binary64.close_position pos ex st.
Proof.
  unfold Binary64.step.
  destruct (Binary64.entry_at data rp (Binary64.account_balance st) i)
    as [pos|]; [|now left].
  destruct (Binary64.find_exit data i) as [j|]; [|now left].
  destruct (Binary64.iloc data j) as [ex|]; [|now left].
  right. now exists pos, ex.
Qed.

(** In binary64 the balance and the total are the left-to-right sums of
    the P/L column, started at the starting balance and at zero. *)
Lemma running_sums_b64 data sb rp : forall k,
  let st := Binary64.state_before data sb rp k in
  Binary64.account_balance st
  = fold_left PrimFloat.add (map Binary64.PnL (Binary64.transactions st)) sb /\
  Binary64.total_pnl st
  = fold_left PrimFloat.add (map Binary64.PnL (Binary64.transactions st))
      0%float.
Proof.
  induction k as [|k IH]; [split; reflexivity|].
  cbv zeta in *. rewrite state_before_S_b64.
  destruct (step_cases_b64 data rp (Binary64.state_before data sb rp k) k)
    as [-> | (pos & ex & ->)]; [exact IH|].
  destruct IH as [IHb IHt]. simpl.
  rewrite !map_app, !fold_left_app. simpl. rewrite <- IHb, <- IHt.
  split; reflexivity.
Qed.

(** C3, as amended.  After the walk, the account balance and the total P/L
    are the running sums, in the order of the trade log, of one and the
    same P/L column: the balance is ((start + pnl_1) + ...) + pnl_k and the
    total is ((0 + pnl_1) + ...) + pnl_k, each addition rounded as the
    program rounds it.  In exact arithmetic this makes the ending balance
    equal to the starting balance plus the total P/L, for every trade log,
    the empty one included; in binary64 the two sides are associated
    differently and agree up to rounding only. *)
Theorem conservation_up_to_rounding :
  (forall data starting_balance risk_percent,
      account_balance (backtest data starting_balance risk_percent)
      == starting_balance
         + total_pnl (backtest data starting_balance risk_percent)) /\
  (forall data starting_balance risk_percent,
      let final := Binary64.backtest data starting_balance risk_percent in
      Binary64.account_balance final
      = fold_left PrimFloat.add
          (map Binary64.PnL (Binary64.transactions final)) starting_balance /\
      Binary64.total_pnl final
      = fold_left PrimFloat.add
          (map Binary64.PnL (Binary64.transactions final)) 0%float).
Proof.
  split.
  - intros data sb rp. unfold backtest. apply balance_is_start_plus_total.
  - intros data sb rp. unfold Binary64.backtest. apply running_sums_b64.
Qed.

(** C3 as stated fails: run in binary64 on [drift] (swing length 5,
    starting balance 10000, risk 5%) the program records two trades and
    ends on a balance of 10265.360804153906, one unit in the last place
    below 10000 plus its total P/L of 265.36080415390768, which is
    10265.360804153908. *)
Lemma conservation_not_exact_in_binary64 :
  exists st t1 t2,
    Binary64.run Binary64.drift 5 10000%float 5%float = Completed st /\
    Binary64.transactions st = [t1; t2] /\
    Binary64.account_balance st = 10265.360804153906%float /\
    Binary64.total_pnl st = 265.36080415390768%float /\
    (10000 + Binary64.total_pnl st)%float = 10265.360804153908%float /\
    PrimFloat.eqb (Binary64.account_balance st)
      (10000 + Binary64.total_pnl st)%float = false.
Proof.
  eexists. eexists. eexists.
  split; [vm_compute; reflexivity|].
  split; [reflexivity|].
  repeat split; vm_compute; reflexivity.
Qed.

(** ** Falling closes (C9) *)

Lemma no_signal_no_change data sb rp :
  (forall i, entry_signal data i = false) ->
  forall k, state_before data sb rp k = initial_state sb.
Proof.
  intros Hno. induction k as [|k IH].
  - apply state_before_0.
  - rewrite state_before_S, IH. unfold step.
    assert (E : entry_at data rp (account_balance (initial_state sb)) k = None)
      by (apply entry_at_none, Hno).
    rewrite E. reflexivity.
Qed.

(** C9.  On an annotated series whose closes fall strictly from each bar to
    the next, the entry condition is false at every index and the run ends
    in its initial state, with an empty trade log. *)
Theorem falling_closes_never_enter :
  forall data starting_balance risk_percent,
    (forall i cur prev,
        iloc data (S i) = Some cur -> iloc data i = Some prev ->
        aClose cur < aClose prev) ->
    (forall i, entry_signal data i = false) /\
    transactions (backtest data starting_balance risk_percent) = [] /\
    backtest data starting_balance risk_percent
    = initial_state starting_balance.
Proof.
  intros data sb rp Hfall.
  assert (Hno : forall i, entry_signal data i = false).
  { intros i. destruct (entry_signal data i) eqn:E; [|reflexivity].
    apply entry_signal_true in E.
    destruct E as [Hi (cur & prev & Hc & Hp & H1 & H2)].
    destruct i as [|i]; [lia|].
    replace (S i - 1)%nat with i in Hp by lia.
    specialize (Hfall i cur prev Hc Hp). exfalso. lra. }
  split; [exact Hno|].
  unfold backtest. rewrite (no_signal_no_change data sb rp Hno).
  split; reflexivity.
Qed.

Lemma slide_closes_fall :
  forall i cur prev,
    iloc slide_rows (S i) = Some cur -> iloc slide_rows i = Some prev ->
    aClose cur < aClose prev.
Proof.
  intros i cur prev Hc Hp.
  do 6 (destruct i as [|i];
        [ vm_compute in Hc, Hp; try discriminate;
          injection Hc as <-; injection Hp as <-; vm_compute; reflexivity
        | ]).
  vm_compute in Hc. destruct i; discriminate.
Qed.

Lemma falling_closes_never_enter_witness :
  (forall i, entry_signal slide_rows i = false) /\
  transactions (backtest slide_rows 10000 5) = [] /\
  backtest slide_rows 10000 5 = initial_state 10000.
Proof.
  apply (falling_closes_never_enter slide_rows 10000 5).
  exact slide_closes_fall.
Defined.

(** ** Retracement levels (C4) *)

(** Every row of the annotated frame carries the three levels of its own
    swing columns. *)
Lemma annotate_levels data swing_length row :
  In row (annotate data swing_length) ->
  rFib38 row = fib_level 0.382 (rSwingHigh row) (rSwingLow row) /\
  rFib50 row = fib_level 0.5 (rSwingHigh row) (rSwingLow row) /\
  rFib61 row = fib_level 0.618 (rSwingHigh row) (rSwingLow row).
Proof.
  unfold annotate. intros H. apply in_map_iff in H.
  destruct H as ([b [sh sl]] & <- & _). simpl. repeat split.
Qed.

Lemma fib_level_order (h l f g : Q) :
  l <= h -> f <= g -> h - (h - l) * g <= h - (h - l) * f.
Proof. intros Hlh Hfg. nra. Qed.

(** C4.  On every annotated bar whose swing high and swing low are both
    defined, each level is [swingHigh - (swingHigh - swingLow) * fraction]
    for the fractions 0.382, 0.5 and 0.618, and if [swingHigh >= swingLow]
    then [fib38 >= fib50 >= fib61]. *)
Theorem fib_levels_ordered :
  forall data swing_length row h l,
    In row (annotate data swing_length) ->
    rSwingHigh row = Some h ->
    rSwingLow row = Some l ->
    l <= h ->
    exists f38 f50 f61,
      rFib38 row = Some f38 /\ rFib50 row = Some f50 /\
      rFib61 row = Some f61 /\
      f38 = h - (h - l) * 0.382 /\
      f50 = h - (h - l) * 0.5 /\
      f61 = h - (h - l) * 0.618 /\
      f50 <= f38 /\ f61 <= f50.
Proof.
  intros data w row h l Hin Hh Hl Hle.
  destruct (annotate_levels data w row Hin) as (E38 & E50 & E61).
  rewrite Hh, Hl in E38, E50, E61. simpl in E38, E50, E61.
  exists (h - (h - l) * 0.382), (h - (h - l) * 0.5), (h - (h - l) * 0.618).
  repeat split; trivial.
  - apply fib_level_order; [exact Hle | vm_compute; discriminate].
  - apply fib_level_order; [exact Hle | vm_compute; discriminate].
Qed.

Lemma fib_levels_ordered_witness :
  exists row f38 f50 f61,
    nth_error (annotate rally 5) 4 = Some row /\
    rSwingHigh row = Some 12.5 /\ rSwingLow row = Some 6.5 /\
    rFib38 row = Some f38 /\ rFib50 row = Some f50 /\
    rFib61 row = Some f61 /\
    f38 = 12.5 - (12.5 - 6.5) * 0.382 /\
    f50 = 12.5 - (12.5 - 6.5) * 0.5 /\
    f61 = 12.5 - (12.5 - 6.5) * 0.618 /\
    f50 <= f38 /\ f61 <= f50.
Proof.
  destruct (nth_error (annotate rally 5) 4) as [row|] eqn:E;
    [|vm_compute in E; discriminate].
  assert (Hin : In row (annotate rally 5)) by (eapply nth_error_In; exact E).
  assert (Hh : rSwingHigh row = Some 12.5)
    by (vm_compute in E; injection E as <-; reflexivity).
  assert (Hl : rSwingLow row = Some 6.5)
    by (vm_compute in E; injection E as <-; reflexivity).
  destruct (fib_levels_ordered rally 5 row 12.5 6.5 Hin Hh Hl
              ltac:(vm_compute; discriminate))
    as (f38 & f50 & f61 & H).
  exists row, f38, f50, f61. tauto.
Defined.

(** ** Shape of the trade log (C10) *)

Lemma step_trade data rp st i cur j ex :
  entry_signal data i = true ->
  iloc data i = Some cur ->
  find_exit data i = Some j ->
  iloc data j = Some ex ->
  step data rp st i =
  close_position (open_position rp (account_balance st) cur) ex st.
Proof.
  intros Hs Hc Hf Hx. unfold step.
  assert (He : entry_at data rp (account_balance st) i =
               Some (open_position rp (account_balance st) cur)).
  { apply entry_at_some. split; [exact Hs|]. now exists cur. }
  rewrite He, Hf, Hx. reflexivity.
Qed.

Lemma sorted_snoc (l : list nat) (k : nat) :
  StronglySorted lt l -> Forall (fun x => (x < k)%nat) l ->
  StronglySorted lt (l ++ [k]).
Proof.
  induction 1 as [|a l Hs IH Ha]; intros Hk; simpl.
  - constructor; constructor.
  - inversion Hk as [|? ? Hak Hlk]; subst. constructor.
    + apply IH, Hlk.
    + apply Forall_app. split; [exact Ha|]. constructor; [exact Hak|constructor].
Qed.

(** Every record of the log comes from a pair entry bar / later exit bar,
    and the entry bars are visited in increasing order. *)
Lemma log_shape data sb rp : forall k,
  exists fills,
    Forall2 (filled_at data) fills (transactions (state_before data sb rp k)) /\
    StronglySorted lt (map fst fills) /\
    Forall (fun i => (i < k)%nat) (map fst fills).
Proof.
  induction k as [|k (fills & Hf & Hs & Hk)].
  - exists []. rewrite state_before_0. simpl.
    repeat split; constructor.
  - rewrite state_before_S.
    destruct (step_cases data rp (state_before data sb rp k) k)
      as [-> | (cur & j & ex & Hsig & Hc & Hfind & Hx & ->)].
    + exists fills. repeat split; trivial.
      eapply Forall_impl; [|exact Hk]. simpl. intros; lia.
    + exists (fills ++ [(k, j)]). simpl. split; [|split].
      * apply Forall2_app; [exact Hf|]. constructor; [|constructor].
        apply find_exit_some in Hfind. destruct Hfind as (Hr & _ & _).
        split; [exact Hr|]. exists cur, ex. simpl. repeat split; trivial.
      * rewrite map_app. simpl. apply sorted_snoc; trivial.
      * rewrite map_app. apply Forall_app. split.
        -- eapply Forall_impl; [|exact Hk]. simpl. intros; lia.
        -- constructor; [simpl; lia|constructor].
Qed.

Lemma filled_dates data p t :
  date_ascending data -> filled_at data p t -> (EntryDate t < ExitDate t)%Z.
Proof.
  intros Hasc [Hr (en & ex & Hen & Hex & -> & -> & _)].
  apply (Hasc (fst p) (snd p)); trivial. lia.
Qed.

(** C10.  Each record of the trade log pairs an entry bar [i] with an exit
    bar [j] such that [i < j]; the entry bars of successive records
    increase strictly (so they are in particular in non-decreasing order);
    and on a frame sorted by strictly increasing date the entry date of
    every record precedes its exit date. *)
Theorem trade_log_ordered :
  forall data starting_balance risk_percent,
    exists fills : list (nat * nat),
      Forall2 (filled_at data) fills
        (transactions (backtest data starting_balance risk_percent)) /\
      Forall (fun p => (fst p < snd p)%nat) fills /\
      StronglySorted lt (map fst fills) /\
      (date_ascending data ->
       Forall (fun t => (EntryDate t < ExitDate t)%Z)
         (transactions (backtest data starting_balance risk_percent))).
Proof.
  intros data sb rp. unfold backtest.
  destruct (log_shape data sb rp (length data)) as (fills & Hf & Hs & _).
  exists fills. split; [exact Hf|]. split; [|split; [exact Hs|]].
  - clear Hs. induction Hf as [|p t ps ts Hpt _ IH]; constructor; trivial.
    destruct Hpt as [Hr _]. lia.
  - intros Hasc. clear Hs.
    induction Hf as [|p t ps ts Hpt _ IH]; constructor; trivial.
    eapply filled_dates; eauto.
Qed.

Lemma rally_rows_ascending : date_ascending rally_rows.
Proof.
  intros a b x y Hab Ha Hb.
  assert (Hlen : (b < 6)%nat).
  { change 6%nat with (length rally_rows). apply nth_error_Some.
    unfold iloc in Hb. congruence. }
  assert (Hda : aDate x = (Z.of_nat a + 3)%Z).
  { do 6 (destruct a as [|a];
          [vm_compute in Ha; injection Ha as <-; reflexivity|]). lia. }
  assert (Hdb : aDate y = (Z.of_nat b + 3)%Z).
  { do 6 (destruct b as [|b];
          [vm_compute in Hb; injection Hb as <-; reflexivity|]). lia. }
  lia.
Qed.

Lemma trade_log_ordered_witness :
  exists fills : list (nat * nat),
    Forall2 (filled_at rally_rows) fills
      (transactions (backtest rally_rows 10000 5)) /\
    Forall (fun p => (fst p < snd p)%nat) fills /\
    StronglySorted lt (map fst fills) /\
    Forall (fun t => (EntryDate t < ExitDate t)%Z)
      (transactions (backtest rally_rows 10000 5)).
Proof.
  destruct (trade_log_ordered rally_rows 10000 5) as (fills & H1 & H2 & H3 & H4).
  exists fills. repeat split; trivial. apply H4. exact rally_rows_ascending.
Defined.

(** ** Sizing of overlapping entries (C2) *)

(** The balance the loop holds is the one written in the last record. *)
Lemma balance_is_closing_balance data sb rp : forall k,
  account_balance (state_before data sb rp k)
  = closing_balance sb (transactions (state_before data sb rp k)).
Proof.
  induction k as [|k IH].
  - reflexivity.
  - rewrite state_before_S.
    destruct (step_cases data rp (state_before data sb rp k) k)
      as [-> | (cur & j & ex & _ & _ & _ & _ & ->)].
    + exact IH.
    + unfold closing_balance, close_position. simpl.
      rewrite map_app. simpl. rewrite last_last. reflexivity.
Qed.

(** The log only grows. *)
Lemma log_grows data sb rp : forall k m,
  (k <= m)%nat ->
  exists more,
    transactions (state_before data sb rp m)
    = transactions (state_before data sb rp k) ++ more.
Proof.
  intros k m Hkm. induction Hkm as [|m Hkm (more & IH)].
  - exists []. now rewrite app_nil_r.
  - rewrite state_before_S.
    destruct (step_cases data rp (state_before data sb rp m) m)
      as [-> | (cur & j & ex & _ & _ & _ & _ & ->)].
    + now exists more.
    + simpl. rewrite IH. eexists. rewrite <- app_assoc. reflexivity.
Qed.

(** An entry between an earlier entry and its exit bar leaves on that same
    bar. *)
Lemma find_exit_between data i i' j :
  (i < i' < j)%nat -> find_exit data i = Some j -> find_exit data i' = Some j.
Proof.
  intros Hi Hf. apply find_exit_some in Hf. destruct Hf as (Hr & Hj & Hfirst).
  apply find_exit_some. split; [lia|]. split; [exact Hj|].
  intros k Hk. apply Hfirst. lia.
Qed.

(** C2, as amended.  If a second entry crossing occurs at a bar [i'] that
    lies after a first entry bar [i] and before the exit bar [j] of the
    first entry, both trades are recorded, both leave on bar [j], and the
    record of the first precedes the record of the second.  The first
    trade's P/L is added to the balance as soon as its entry is processed,
    so the second entry's shares are computed from the balance written in
    the last record before it, a balance that already contains the first
    trade's P/L. *)
Theorem reentry_sized_from_current_balance :
  forall data starting_balance risk_percent i i' j,
    (i < i' < j)%nat ->
    entry_signal data i = true ->
    entry_signal data i' = true ->
    find_exit data i = Some j ->
    exists en1 en2 ex log0 t1 log1 t2 log2,
      iloc data i = Some en1 /\ iloc data i' = Some en2 /\
      iloc data j = Some ex /\
      transactions (backtest data starting_balance risk_percent)
      = log0 ++ t1 :: log1 ++ t2 :: log2 /\
      EntryDate t1 = aDate en1 /\ ExitDate t1 = aDate ex /\
      EntryDate t2 = aDate en2 /\ ExitDate t2 = aDate ex /\
      AccountBalance t1 = closing_balance starting_balance log0 + PnL t1 /\
      SharesBought t2
      = (risk_percent / 100
         * closing_balance starting_balance (log0 ++ t1 :: log1))
        / aClose en2.
Proof.
  intros data sb rp i i' j Hi Hs1 Hs2 Hf1.
  pose proof (find_exit_between data i i' j Hi Hf1) as Hf2.
  pose proof (proj1 (find_exit_some data i j) Hf1) as (Hr & _ & _).
  destruct (iloc_in_range data i) as [en1 Hen1]; [lia|].
  destruct (iloc_in_range data i') as [en2 Hen2]; [lia|].
  destruct (iloc_in_range data j) as [ex Hex]; [lia|].
  pose proof (state_before_S data sb rp i) as E1.
  rewrite (step_trade data rp _ i en1 j ex Hs1 Hen1 Hf1 Hex) in E1.
  pose proof (state_before_S data sb rp i') as E2.
  rewrite (step_trade data rp _ i' en2 j ex Hs2 Hen2 Hf2 Hex) in E2.
  destruct (log_grows data sb rp (S i) i') as (log1 & G1); [lia|].
  destruct (log_grows data sb rp (S i') (length data)) as (log2 & G2); [lia|].
  rewrite E1 in G1. rewrite E2 in G2. simpl in G1, G2.
  set (s1 := state_before data sb rp i) in *.
  set (s2 := state_before data sb rp i') in *.
  exists en1, en2, ex, (transactions s1).
  eexists. exists log1. eexists. exists log2.
  split; [exact Hen1|]. split; [exact Hen2|]. split; [exact Hex|].
  split.
  { unfold backtest. rewrite G2, G1.
    rewrite <- !app_assoc. simpl. reflexivity. }
  simpl. repeat split.
  - unfold s1. rewrite <- balance_is_closing_balance. reflexivity.
  - replace (transactions s1 ++ _ :: log1) with (transactions s2).
    + unfold s2. rewrite <- balance_is_closing_balance. reflexivity.
    + rewrite G1. rewrite <- app_assoc. reflexivity.
Qed.

Lemma reentry_sized_from_current_balance_witness :
  exists en1 en2 ex log0 t1 log1 t2 log2,
    iloc rally_rows 2 = Some en1 /\ iloc rally_rows 3 = Some en2 /\
    iloc rally_rows 5 = Some ex /\
    transactions (backtest rally_rows 10000 5)
    = log0 ++ t1 :: log1 ++ t2 :: log2 /\
    EntryDate t1 = aDate en1 /\ ExitDate t1 = aDate ex /\
    EntryDate t2 = aDate en2 /\ ExitDate t2 = aDate ex /\
    AccountBalance t1 = closing_balance 10000 log0 + PnL t1 /\
    SharesBought t2
    = (5 / 100 * closing_balance 10000 (log0 ++ t1 :: log1)) / aClose en2.
Proof.
  apply (reentry_sized_from_current_balance rally_rows 10000 5 2 3 5).
  - lia.
  - vm_compute; reflexivity.
  - vm_compute; reflexivity.
  - vm_compute; reflexivity.
Defined.

(** C2 as stated fails: on [rally] the entries of days 5 and 6 both precede
    the exit bar of the first (day 8) and both trades are recorded, but the
    position of the second is 5% of 10175, the balance after the first
    trade's P/L of 175, and not 5% of the balance of 10000 that preceded
    it. *)
Lemma reentry_not_sized_before_first_exit :
  run rally 5 10000 5 = Completed (backtest rally_rows 10000 5) /\
  exists t1 t2,
    transactions (backtest rally_rows 10000 5) = [t1; t2] /\
    EntryDate t1 = 5%Z /\ ExitDate t1 = 8%Z /\
    EntryDate t2 = 6%Z /\ ExitDate t2 = 8%Z /\
    PnL t1 == 175 /\ AccountBalance t1 == 10175 /\
    SharesBought t2 * EntryPrice t2 == 5 / 100 * 10175 /\
    ~ SharesBought t2 * EntryPrice t2 == 5 / 100 * 10000.
Proof.
  split.
  - unfold run. rewrite rally_rows_engine. reflexivity.
  - eexists. eexists. split; [vm_compute; reflexivity|]. qclosed.
Qed.

(** ** A window as wide as the frame (C6) *)

Module WindowFacts.

Import Rolling.

(** With a window as wide as the frame, only the row in the middle sees a
    full window. *)
Lemma bounds_middle (n : Z) :
  (1 <= n)%Z -> window_bounds n n (n / 2) = (0%Z, n).
Proof.
  intros Hn. unfold window_bounds.
  assert (E : (n / 2 + 1 + (n - 1) / 2 = n)%Z)
    by (Z.div_mod_to_equations; lia).
  rewrite E. f_equal; lia.
Qed.

Lemma bounds_elsewhere (n i : Z) :
  (1 <= n)%Z -> (0 <= i)%Z -> i <> (n / 2)%Z ->
  (snd (window_bounds n n i) - fst (window_bounds n n i) < n)%Z.
Proof.
  intros Hn Hi Hne. unfold window_bounds. simpl.
  assert (E : (n / 2 + 1 + (n - 1) / 2 = n)%Z)
    by (Z.div_mod_to_equations; lia).
  lia.
Qed.

Lemma observations_middle (xs : list Q) :
  xs <> [] ->
  observations (Z.of_nat (length xs)) xs (length xs / 2) = xs.
Proof.
  intros Hne. unfold observations.
  assert (Hlen : (1 <= Z.of_nat (length xs))%Z)
    by (destruct xs; [congruence | simpl length; lia]).
  rewrite Nat2Z.inj_div. change (Z.of_nat 2) with 2%Z.
  rewrite (bounds_middle _ Hlen).
  rewrite Z.sub_0_r, Nat2Z.id. simpl skipn. apply firstn_all.
Qed.

Lemma observations_elsewhere (xs : list Q) (i : nat) :
  xs <> [] -> i <> (length xs / 2)%nat ->
  (length (observations (Z.of_nat (length xs)) xs i) < length xs)%nat.
Proof.
  intros Hne Hi. unfold observations.
  assert (Hlen : (1 <= Z.of_nat (length xs))%Z)
    by (destruct xs; [congruence | simpl length; lia]).
  pose proof (bounds_elsewhere (Z.of_nat (length xs)) (Z.of_nat i) Hlen
                ltac:(lia)) as Hb.
  destruct (window_bounds (Z.of_nat (length xs)) (Z.of_nat (length xs))
              (Z.of_nat i)) as [s e].
  simpl in Hb.
  assert (Hi' : Z.of_nat i <> (Z.of_nat (length xs) / 2)%Z).
  { intros E. apply Hi. apply Nat2Z.inj. rewrite Nat2Z.inj_div. exact E. }
  specialize (Hb Hi').
  pose proof (firstn_le_length (Z.to_nat (e - s)) (skipn (Z.to_nat s) xs)).
  lia.
Qed.

Lemma seq_middle (n k : nat) :
  (k < n)%nat -> seq 0 n = seq 0 k ++ k :: seq (S k) (n - 1 - k).
Proof.
  intros Hk. replace n with (k + S (n - 1 - k))%nat at 1 by lia.
  rewrite seq_app. reflexivity.
Qed.

(** The rolling column of a window as wide as the frame: one number, in
    the middle row. *)
Lemma rolling_full_width (agg : Q -> Q -> Q) (x : Q) (rest : list Q)
  (n : nat) :
  n = length (x :: rest) ->
  rolling_center agg (Z.of_nat n) (x :: rest)
  = repeat None (n / 2) ++ Some (fold_left agg rest x)
      :: repeat None (n - 1 - n / 2).
Proof.
  intros Hn. remember (x :: rest) as xs eqn:Hxs.
  assert (Hne : xs <> []) by (subst xs; discriminate).
  assert (Hpos : (1 <= n)%nat) by (subst n xs; simpl; lia).
  assert (Hk : (n / 2 < n)%nat) by (apply Nat.div_lt; lia).
  assert (Hshort : forall i, i <> (n / 2)%nat ->
            aggregate agg (Z.of_nat n) (observations (Z.of_nat n) xs i)
            = None).
  { intros i Hi. unfold aggregate.
    pose proof (observations_elsewhere xs i Hne) as H.
    rewrite <- Hn in H. specialize (H Hi).
    destruct (Z.ltb_spec
                (Z.of_nat (length (observations (Z.of_nat n) xs i)))
                (Z.of_nat n)); [reflexivity | lia]. }
  unfold rolling_center. rewrite <- Hn.
  rewrite (seq_middle n (n / 2) Hk), map_app. cbn [map].
  f_equal; [|f_equal].
  - transitivity (map (fun _ : nat => @None Q) (seq 0 (n / 2)));
      [|rewrite map_const, length_seq; reflexivity].
    apply map_ext_in. intros i Hin. apply in_seq in Hin.
    apply Hshort. lia.
  - pose proof (observations_middle xs Hne) as Hmid.
    rewrite <- Hn in Hmid. rewrite Hmid. unfold aggregate.
    destruct (Z.ltb_spec (Z.of_nat (length xs)) (Z.of_nat n)); [lia|].
    subst xs. reflexivity.
  - transitivity
      (map (fun _ : nat => @None Q) (seq (S (n / 2)) (n - 1 - n / 2)));
      [|rewrite map_const, length_seq; reflexivity].
    apply map_ext_in. intros i Hin. apply in_seq in Hin.
    apply Hshort. lia.
Qed.

Lemma fold_max_acc (l : list Q) : forall acc, acc <= fold_left Qmax l acc.
Proof.
  induction l as [|a l IH]; intros acc; simpl.
  - apply Qle_refl.
  - eapply Qle_trans; [apply (Q.le_max_l acc a) | apply IH].
Qed.

Lemma fold_max_upper (l : list Q) : forall acc y,
  In y (acc :: l) -> y <= fold_left Qmax l acc.
Proof.
  induction l as [|a l IH]; intros acc y Hin; simpl.
  - destruct Hin as [<- | []]. apply Qle_refl.
  - destruct Hin as [<- | [<- | Hin]].
    + eapply Qle_trans; [apply (Q.le_max_l acc a) | apply fold_max_acc].
    + eapply Qle_trans; [apply (Q.le_max_r acc a) | apply fold_max_acc].
    + apply IH. now right.
Qed.

Lemma fold_min_acc (l : list Q) : forall acc, fold_left Qmin l acc <= acc.
Proof.
  induction l as [|a l IH]; intros acc; simpl.
  - apply Qle_refl.
  - eapply Qle_trans; [apply IH | apply (Q.le_min_l acc a)].
Qed.

Lemma fold_min_lower (l : list Q) : forall acc y,
  In y (acc :: l) -> fold_left Qmin l acc <= y.
Proof.
  induction l as [|a l IH]; intros acc y Hin; simpl.
  - destruct Hin as [<- | []]. apply Qle_refl.
  - destruct Hin as [<- | [<- | Hin]].
    + eapply Qle_trans; [apply fold_min_acc | apply (Q.le_min_l acc a)].
    + eapply Qle_trans; [apply fold_min_acc | apply (Q.le_min_r acc a)].
    + apply IH. now right.
Qed.

End WindowFacts.

Lemma Qmax_pick (x y : Q) : Qmax x y = x \/ Qmax x y = y.
Proof.
  unfold Qmax, GenericMinMax.gmax. destruct (x ?= y); auto.
Qed.

Lemma Qmin_pick (x y : Q) : Qmin x y = x \/ Qmin x y = y.
Proof.
  unfold Qmin, GenericMinMax.gmin. destruct (x ?= y); auto.
Qed.

Lemma fold_pick (agg : Q -> Q -> Q) :
  (forall x y, agg x y = x \/ agg x y = y) ->
  forall rest x, In (fold_left agg rest x) (x :: rest).
Proof.
  intros Hpick. induction rest as [|a rest IH]; intros x; simpl.
  - now left.
  - destruct (IH (agg x a)) as [H | H].
    + destruct (Hpick x a) as [E | E].
      * left. congruence.
      * right. left. congruence.
    + right. right. exact H.
Qed.

Lemma combine_app {A B : Type} (l1 l2 : list A) (l1' l2' : list B) :
  length l1 = length l1' ->
  combine (l1 ++ l2) (l1' ++ l2') = combine l1 l1' ++ combine l2 l2'.
Proof.
  revert l1'. induction l1 as [|a l1 IH]; intros [|a' l1'] Hlen;
    simpl in *; try discriminate; [reflexivity|].
  f_equal. apply IH. lia.
Qed.

Lemma rolling_center_length agg w xs :
  length (Rolling.rolling_center agg w xs) = length xs.
Proof. unfold Rolling.rolling_center. now rewrite length_map, length_seq. Qed.

(** The two swing columns of the annotated frame are the rolling columns. *)
Lemma annotate_swing_columns data w :
  map rSwingHigh (annotate data w) = Rolling.rolling_max w (map High data) /\
  map rSwingLow (annotate data w) = Rolling.rolling_min w (map Low data).
Proof.
  unfold annotate.
  assert (Hh : length (Rolling.rolling_max w (map High data)) = length data)
    by (unfold Rolling.rolling_max; now rewrite rolling_center_length, length_map).
  assert (Hl : length (Rolling.rolling_min w (map Low data)) = length data)
    by (unfold Rolling.rolling_min; now rewrite rolling_center_length, length_map).
  revert Hh Hl.
  generalize (Rolling.rolling_max w (map High data)) as hs.
  generalize (Rolling.rolling_min w (map Low data)) as ls.
  induction data as [|b data IH]; intros [|l ls] [|h hs] Hh Hl;
    simpl in *; try discriminate; [split; reflexivity|].
  destruct (IH ls hs) as [IH1 IH2]; [lia | lia |].
  split; f_equal; assumption.
Qed.

Lemma blank_rows (d : list Bar) (k : nat) (r : Row) :
  In r (map (fun '(b, swings) => with_levels b swings)
          (combine d (combine (repeat None k) (repeat None k)))) ->
  rFib50 r = None.
Proof.
  intros H. apply in_map_iff in H. destruct H as ([b [sh sl]] & <- & Hin).
  apply in_combine_r, in_combine_l, repeat_spec in Hin. subst sh.
  reflexivity.
Qed.

Lemma dropna_blank (rows : list Row) :
  (forall r, In r rows -> rFib50 r = None) -> dropna rows = [].
Proof.
  induction rows as [|r rows IH]; intros H; [reflexivity|].
  unfold dropna in *. simpl. rewrite (H r) by now left.
  simpl. apply IH. intros r' Hr'. apply H. now right.
Qed.

Lemma all_null_with_value (l1 l2 : list (option Q)) (v : Q) :
  all_null (l1 ++ Some v :: l2) = false.
Proof.
  unfold all_null. rewrite forallb_app. simpl. apply andb_false_r.
Qed.

(** C6, as amended.  When the swing length equals the length [n] of a
    non-empty frame, the centred window is full on exactly one row, the one
    at index [n / 2], whose swing high is the maximum high and whose swing
    low is the minimum low of the whole frame (each bounds every bar and is
    attained by one); every other row has undefined swings.  The engine does not stop:
    it hands that single row to the simulator, and the run completes in its
    initial state with an empty trade log. *)
Theorem full_width_window_fits_once :
  forall data,
    data <> [] ->
    let n := length data in
    exists b row,
      nth_error data (n / 2) = Some b /\
      map rSwingHigh (annotate data (Z.of_nat n))
      = repeat None (n / 2) ++ Some (aSwingHigh row)
          :: repeat None (n - 1 - n / 2) /\
      map rSwingLow (annotate data (Z.of_nat n))
      = repeat None (n / 2) ++ Some (aSwingLow row)
          :: repeat None (n - 1 - n / 2) /\
      indicator_engine data (Z.of_nat n) = Completed [row] /\
      aDate row = Date b /\ aClose row = Close b /\
      (forall x, In x data -> High x <= aSwingHigh row) /\
      (forall x, In x data -> aSwingLow row <= Low x) /\
      (exists x, In x data /\ aSwingHigh row = High x) /\
      (exists y, In y data /\ aSwingLow row = Low y) /\
      forall starting_balance risk_percent,
        run data (Z.of_nat n) starting_balance risk_percent
        = Completed (initial_state starting_balance).
Proof.
  intros data Hne n.
  destruct data as [|b0 rest]; [congruence|]. clear Hne.
  set (vh := fold_left Qmax (map High rest) (High b0)).
  set (vl := fold_left Qmin (map Low rest) (Low b0)).
  assert (Hvh : forall x, In x (b0 :: rest) -> High x <= vh).
  { intros x Hx. apply WindowFacts.fold_max_upper.
    change (High b0 :: map High rest) with (map High (b0 :: rest)).
    now apply in_map. }
  assert (Hvl : forall x, In x (b0 :: rest) -> vl <= Low x).
  { intros x Hx. apply WindowFacts.fold_min_lower.
    change (Low b0 :: map Low rest) with (map Low (b0 :: rest)).
    now apply in_map. }
  assert (Hk : (n / 2 < n)%nat)
    by (apply Nat.div_lt; unfold n; simpl; lia).
  assert (Hh : Rolling.rolling_max (Z.of_nat n) (map High (b0 :: rest))
               = repeat None (n / 2) ++ Some vh :: repeat None (n - 1 - n / 2)).
  { apply (WindowFacts.rolling_full_width Qmax).
    unfold n. simpl. f_equal. symmetry. apply length_map. }
  assert (Hl : Rolling.rolling_min (Z.of_nat n) (map Low (b0 :: rest))
               = repeat None (n / 2) ++ Some vl :: repeat None (n - 1 - n / 2)).
  { apply (WindowFacts.rolling_full_width Qmin).
    unfold n. simpl. f_equal. symmetry. apply length_map. }
  destruct (annotate_swing_columns (b0 :: rest) (Z.of_nat n)) as [Ch Cl].
  rewrite Hh in Ch. rewrite Hl in Cl.
  destruct (nth_error (b0 :: rest) (n / 2)) as [b|] eqn:Hb;
    [|apply nth_error_None in Hb; fold n in Hb; lia].
  destruct (nth_error_split _ _ Hb) as (d1 & d2 & Hsplit & Hd1).
  assert (Hrows :
    annotate (b0 :: rest) (Z.of_nat n)
    = map (fun '(b, swings) => with_levels b swings)
        (combine d1 (combine (repeat None (n / 2)) (repeat None (n / 2))))
      ++ with_levels b (Some vh, Some vl)
      :: map (fun '(b, swings) => with_levels b swings)
           (combine d2 (combine (repeat None (n - 1 - n / 2))
                          (repeat None (n - 1 - n / 2))))).
  { unfold annotate. rewrite Hh, Hl. rewrite Hsplit.
    rewrite (combine_app (repeat None (n / 2)))
      by now rewrite !repeat_length.
    rewrite (combine_app d1)
      by (rewrite length_combine, !repeat_length; lia).
    rewrite map_app. reflexivity. }
  assert (Hengine :
    indicator_engine (b0 :: rest) (Z.of_nat n)
    = Completed
        [ {| aDate := Date b; aHigh := High b; aLow := Low b;
             aClose := Close b; aSwingHigh := vh; aSwingLow := vl;
             aFib38 := Some (vh - (vh - vl) * 0.382);
             aFib50 := vh - (vh - vl) * 0.5;
             aFib61 := Some (vh - (vh - vl) * 0.618) |} ]).
  { unfold indicator_engine. fold n. rewrite Z.ltb_irrefl.
    cbv zeta. rewrite Ch, Cl, !all_null_with_value. cbn [orb].
    rewrite Hrows, !map_app. cbn [map with_levels rFib38 rFib50 rFib61
                                   fib_level].
    rewrite !all_null_with_value. cbn [orb].
    unfold dropna. rewrite flat_map_app. cbn [flat_map].
    fold (dropna (map (fun '(b1, swings) => with_levels b1 swings)
                    (combine d1 (combine (repeat None (n / 2))
                                   (repeat None (n / 2)))))).
    fold (dropna (map (fun '(b1, swings) => with_levels b1 swings)
                    (combine d2 (combine (repeat None (n - 1 - n / 2))
                                   (repeat None (n - 1 - n / 2)))))).
    rewrite !dropna_blank by (intros r Hr; eapply blank_rows; exact Hr).
    reflexivity. }
  exists b.
  exists {| aDate := Date b; aHigh := High b; aLow := Low b;
            aClose := Close b; aSwingHigh := vh; aSwingLow := vl;
            aFib38 := Some (vh - (vh - vl) * 0.382);
            aFib50 := vh - (vh - vl) * 0.5;
            aFib61 := Some (vh - (vh - vl) * 0.618) |}.
  split; [reflexivity|].
  split; [exact Ch|]. split; [exact Cl|].
  split; [exact Hengine|].
  split; [reflexivity|]. split; [reflexivity|].
  split; [exact Hvh|]. split; [exact Hvl|].
  split.
  { destruct (proj1 (in_map_iff High (b0 :: rest) vh)
                (fold_pick Qmax Qmax_pick (map High rest) (High b0)))
      as (x & Hx & Hin).
    exists x. split; [exact Hin|]. simpl. now symmetry. }
  split.
  { destruct (proj1 (in_map_iff Low (b0 :: rest) vl)
                (fold_pick Qmin Qmin_pick (map Low rest) (Low b0)))
      as (y & Hy & Hin).
    exists y. split; [exact Hin|]. simpl. now symmetry. }
  intros sb rp. unfold run. rewrite Hengine. reflexivity.
Qed.

Lemma full_width_window_fits_once_witness :
  exists row,
    indicator_engine five_bars 5 = Completed [row] /\
    aDate row = 3%Z /\
    run five_bars 5 10000 5 = Completed (initial_state 10000).
Proof.
  destruct (full_width_window_fits_once five_bars ltac:(discriminate))
    as (b & row & Hb & _ & _ & He & Hd & _ & _ & _ & _ & _ & Hrun).
  exists row. split; [exact He|]. split; [|apply Hrun].
  rewrite Hd. vm_compute in Hb. injection Hb as <-. reflexivity.
Defined.

(** C6 as stated fails: [five_bars] has as many rows as the swing length 5,
    yet the row of day 3 has both swing values and the engine completes. *)
Lemma full_width_window_not_rejected :
  length five_bars = 5%nat /\
  map rSwingHigh (annotate five_bars 5)
  = [None; None; Some 12.5; None; None] /\
  map rSwingLow (annotate five_bars 5)
  = [None; None; Some 8.5; None; None] /\
  exists row,
    indicator_engine five_bars 5 = Completed [row] /\ aDate row = 3%Z.
Proof.
  split; [reflexivity|]. split; [vm_compute; reflexivity|].
  split; [vm_compute; reflexivity|].
  eexists. split; [vm_compute; reflexivity|reflexivity].
Qed.

(** ** A frame of one bar (C8) *)

(** Every position of the swing-length slider is above 1. *)
Lemma slider_above_one swing_length :
  swing_length_slider swing_length -> (1 < swing_length)%Z.
Proof. unfold swing_length_slider. lia. Qed.

(** A frame of one row is smaller than any window of more than one row. *)
Lemma one_bar_too_small (b : Bar) (swing_length : Z) :
  (1 < swing_length)%Z ->
  indicator_engine [b] swing_length = Stopped DatasetTooSmall.
Proof.
  intros Hw. unfold indicator_engine. simpl length.
  destruct (Z.ltb_spec (Z.of_nat 1) swing_length) as [_|H]; [reflexivity|].
  simpl in H. lia.
Qed.

(** C8.  On a frame of exactly one bar the engine stops with the
    dataset-too-small error, for every swing length the slider offers
    (5..50). *)
Theorem single_bar_rejected :
  forall (b : Bar) (swing_length : Z),
    swing_length_slider swing_length ->
    indicator_engine [b] swing_length = Stopped DatasetTooSmall.
Proof.
  intros b w Hw. apply one_bar_too_small, slider_above_one, Hw.
Qed.

Lemma single_bar_rejected_witness :
  indicator_engine [bar 1 10] 5 = Stopped DatasetTooSmall.
Proof.
  apply (single_bar_rejected (bar 1 10) 5).
  unfold swing_length_slider. lia.
Defined.

(** The bound of [one_bar_too_small] is sharp: a window of one row, which
    the slider does not offer, fits a frame of one bar. *)
Remark single_bar_window_of_one :
  exists row, indicator_engine [bar 1 10] 1 = Completed [row].
Proof. eexists. vm_compute. reflexivity. Qed.

(** ** The engine on every frame *)

Module EngineFacts.

Import Rolling.

Lemma map_seq_shift {A : Type} : forall len (g : nat -> A) start,
  map g (seq start len) = map (fun k => g (start + k)%nat) (seq 0 len).
Proof.
  induction len as [|len IH]; intros g start; [reflexivity|].
  simpl. rewrite Nat.add_0_r. f_equal.
  rewrite (IH g (S start)), (IH (fun k => g (start + k)%nat) 1%nat).
  apply map_ext. intros k. f_equal. lia.
Qed.

Lemma seq_three (n a m : nat) :
  (a + m <= n)%nat ->
  seq 0 n = seq 0 a ++ seq a m ++ seq (a + m) (n - a - m).
Proof.
  intros H. replace n with (a + (m + (n - a - m)))%nat at 1 by lia.
  rewrite seq_app. simpl. rewrite seq_app. reflexivity.
Qed.

(** The arithmetic of the centred window. *)
Lemma halves (w : Z) : (1 <= w)%Z -> (w / 2 + (w - 1) / 2 = w - 1)%Z.
Proof. intros H. Z.div_mod_to_equations. lia. Qed.

Lemma bounds_inside (n w i : Z) :
  (1 <= w <= n)%Z -> (w / 2 <= i)%Z -> (i + (w - 1) / 2 < n)%Z ->
  window_bounds n w i = ((i - w / 2)%Z, (i - w / 2 + w)%Z).
Proof.
  intros Hw Hlo Hhi. unfold window_bounds.
  pose proof (halves w ltac:(lia)) as E. f_equal; lia.
Qed.

Lemma bounds_outside (n w i : Z) :
  (1 <= w <= n)%Z -> (0 <= i < n)%Z ->
  (i < w / 2 \/ n <= i + (w - 1) / 2)%Z ->
  (snd (window_bounds n w i) - fst (window_bounds n w i) < w)%Z.
Proof.
  intros Hw Hi Hout. unfold window_bounds. simpl.
  pose proof (halves w ltac:(lia)) as E. lia.
Qed.

Lemma observations_inside (w : Z) (xs : list Q) (k : nat) :
  (1 <= w <= Z.of_nat (length xs))%Z ->
  (k + Z.to_nat w <= length xs)%nat ->
  observations w xs (Z.to_nat (w / 2) + k)
  = firstn (Z.to_nat w) (skipn k xs).
Proof.
  intros Hw Hk. unfold observations.
  assert (H2 : (0 <= w / 2)%Z) by (apply Z.div_pos; lia).
  assert (H3 : (0 <= (w - 1) / 2)%Z) by (apply Z.div_pos; lia).
  pose proof (halves w ltac:(lia)) as E.
  rewrite (bounds_inside _ w) by lia.
  replace (Z.of_nat (Z.to_nat (w / 2) + k) - w / 2 + w
           - (Z.of_nat (Z.to_nat (w / 2) + k) - w / 2))%Z with w by lia.
  replace (Z.to_nat (Z.of_nat (Z.to_nat (w / 2) + k) - w / 2)) with k by lia.
  reflexivity.
Qed.

Lemma observations_outside (w : Z) (xs : list Q) (i : nat) :
  (1 <= w <= Z.of_nat (length xs))%Z ->
  (i < length xs)%nat ->
  (i < Z.to_nat (w / 2) \/ length xs - Z.to_nat w + 1 + Z.to_nat (w / 2) <= i)%nat ->
  (Z.of_nat (length (observations w xs i)) < w)%Z.
Proof.
  intros Hw Hi Hout. unfold observations.
  assert (H2 : (0 <= w / 2)%Z) by (apply Z.div_pos; lia).
  assert (H3 : (0 <= (w - 1) / 2)%Z) by (apply Z.div_pos; lia).
  pose proof (halves w ltac:(lia)) as E.
  pose proof (bounds_outside (Z.of_nat (length xs)) w (Z.of_nat i) Hw
                ltac:(lia) ltac:(lia)) as Hb.
  destruct (window_bounds (Z.of_nat (length xs)) w (Z.of_nat i)) as [s e].
  simpl in Hb.
  pose proof (firstn_le_length (Z.to_nat (e - s)) (skipn (Z.to_nat s) xs)).
  lia.
Qed.

Lemma aggregate_full (agg : Q -> Q -> Q) (w : Z) (obs : list Q) :
  (1 <= w)%Z -> Z.of_nat (length obs) = w ->
  aggregate agg w obs = Some (window_fold agg obs).
Proof.
  intros Hw Hlen. unfold aggregate.
  destruct (Z.ltb_spec (Z.of_nat (length obs)) w); [lia|].
  destruct obs; [simpl in Hlen; lia | reflexivity].
Qed.

Lemma aggregate_short (agg : Q -> Q -> Q) (w : Z) (obs : list Q) :
  (Z.of_nat (length obs) < w)%Z -> aggregate agg w obs = None.
Proof.
  intros H. unfold aggregate.
  destruct (Z.ltb_spec (Z.of_nat (length obs)) w); [reflexivity|lia].
Qed.

(** The rolling column: undefined on the first [w / 2] rows and on the
    last [(w - 1) / 2], the extreme of the window that starts at row [k] on
    the [k]-th row in between. *)
Lemma rolling_shape (agg : Q -> Q -> Q) (w : Z) (xs : list Q) :
  (1 <= w <= Z.of_nat (length xs))%Z ->
  let first := Z.to_nat (w / 2) in
  let count := (length xs - Z.to_nat w + 1)%nat in
  rolling_center agg w xs
  = repeat None first
    ++ map (fun k => Some (window_fold agg (firstn (Z.to_nat w) (skipn k xs))))
         (seq 0 count)
    ++ repeat None (length xs - first - count).
Proof.
  intros Hw first count.
  assert (H2 : (0 <= w / 2)%Z) by (apply Z.div_pos; lia).
  assert (H3 : (0 <= (w - 1) / 2)%Z) by (apply Z.div_pos; lia).
  pose proof (halves w ltac:(lia)) as E.
  assert (Hfit : (first + count <= length xs)%nat) by (unfold first, count; lia).
  unfold rolling_center.
  rewrite (seq_three (length xs) first count Hfit), !map_app.
  f_equal; [|f_equal].
  - transitivity (map (fun _ : nat => @None Q) (seq 0 first));
      [|rewrite map_const, length_seq; reflexivity].
    apply map_ext_in. intros i Hin. apply in_seq in Hin.
    apply aggregate_short, observations_outside; trivial; lia.
  - rewrite map_seq_shift. apply map_ext_in. intros k Hin.
    apply in_seq in Hin. unfold first.
    rewrite observations_inside by (trivial; unfold count in Hin; lia).
    apply aggregate_full; [lia|].
    rewrite firstn_length_le; [lia|].
    rewrite length_skipn. unfold count in Hin. lia.
  - transitivity
      (map (fun _ : nat => @None Q)
         (seq (first + count) (length xs - first - count)));
      [|rewrite map_const, length_seq; reflexivity].
    apply map_ext_in. intros i Hin. apply in_seq in Hin.
    apply aggregate_short, observations_outside; trivial;
      unfold first, count in *; lia.
Qed.

End EngineFacts.

Lemma combine_indexed {A B C : Type} (f : nat -> B) (g : nat -> C) :
  forall (l : list A) start,
    combine l (combine (map f (seq start (length l)))
                 (map g (seq start (length l))))
    = map (fun '(k, a) => (a, (f k, g k))) (combine (seq start (length l)) l).
Proof.
  induction l as [|a l IH]; intros start; [reflexivity|].
  simpl. f_equal. apply IH.
Qed.

Lemma dropna_defined (hi lo : nat -> Q) : forall (l : list (nat * Bar)),
  dropna (map (fun '(k, b) => with_levels b (Some (hi k), Some (lo k))) l)
  = map (fun '(k, b) =>
           {| aDate := Date b; aHigh := High b; aLow := Low b;
              aClose := Close b;
              aSwingHigh := hi k; aSwingLow := lo k;
              aFib38 := Some (hi k - (hi k - lo k) * 0.382);
              aFib50 := hi k - (hi k - lo k) * 0.5;
              aFib61 := Some (hi k - (hi k - lo k) * 0.618) |}) l.
Proof.
  induction l as [|[k b] l IH]; [reflexivity|].
  unfold dropna in *. simpl. f_equal. exact IH.
Qed.

Lemma all_null_false_in (col : list (option Q)) (v : Q) :
  In (Some v) col -> all_null col = false.
Proof.
  intros Hin. apply in_split in Hin. destruct Hin as (l1 & l2 & ->).
  apply all_null_with_value.
Qed.

Lemma blank_rows_dropna (d : list Bar) (k : nat) :
  dropna (map (fun '(b, swings) => with_levels b swings)
            (combine d (combine (repeat None k) (repeat None k)))) = [].
Proof.
  apply dropna_blank. intros r Hr. eapply blank_rows. exact Hr.
Qed.

(** The annotated frame in three parts: blank rows, the rows with a full
    window, blank rows. *)
Lemma annotate_shape (data : list Bar) (w : Z) :
  (1 <= w <= Z.of_nat (length data))%Z ->
  let first := Z.to_nat (w / 2) in
  let count := (length data - Z.to_nat w + 1)%nat in
  let hi k := window_fold Qmax (map High (window_at data (Z.to_nat w) k)) in
  let lo k := window_fold Qmin (map Low (window_at data (Z.to_nat w) k)) in
  annotate data w
  = map (fun '(b, swings) => with_levels b swings)
      (combine (firstn first data)
         (combine (repeat None first) (repeat None first)))
    ++ map (fun '(k, b) => with_levels b (Some (hi k), Some (lo k)))
         (combine (seq 0 count) (firstn count (skipn first data)))
    ++ map (fun '(b, swings) => with_levels b swings)
         (combine (skipn (first + count) data)
            (combine (repeat None (length data - first - count))
               (repeat None (length data - first - count)))).
Proof.
  intros Hw first count hi lo.
  assert (H2 : (0 <= w / 2)%Z) by (apply Z.div_pos; lia).
  assert (H3 : (0 <= (w - 1) / 2)%Z) by (apply Z.div_pos; lia).
  pose proof (EngineFacts.halves w ltac:(lia)) as E.
  assert (Hfit : (first + count <= length data)%nat)
    by (unfold first, count; lia).
  unfold annotate, Rolling.rolling_max, Rolling.rolling_min.
  rewrite !EngineFacts.rolling_shape by (rewrite length_map; exact Hw).
  rewrite !length_map. fold first. fold count.
  set (r := (length data - first - count)%nat).
  assert (Hd : data = firstn first data
                      ++ firstn count (skipn first data)
                      ++ skipn (first + count) data).
  { rewrite <- (firstn_skipn first data) at 1. f_equal.
    rewrite <- (firstn_skipn count (skipn first data)) at 1. f_equal.
    rewrite skipn_skipn. f_equal. lia. }
  assert (Hl1 : length (firstn first data) = first)
    by (apply firstn_length_le; lia).
  assert (Hl2 : length (firstn count (skipn first data)) = count)
    by (apply firstn_length_le; rewrite length_skipn; lia).
  rewrite (combine_app (repeat None first)) by now rewrite !repeat_length.
  rewrite (combine_app (map _ (seq 0 count)))
    by now rewrite !length_map.
  rewrite Hd at 1.
  rewrite (combine_app (firstn first data))
    by (rewrite length_combine, !repeat_length; lia).
  rewrite (combine_app (firstn count (skipn first data)))
    by (rewrite length_combine, !length_map, length_seq; lia).
  rewrite !map_app. f_equal. f_equal.
  remember (firstn count (skipn first data)) as d2 eqn:Hd2. clear Hd2.
  rewrite <- Hl2.
  rewrite (combine_indexed
             (fun k => Some (window_fold Qmax
                               (firstn (Z.to_nat w) (skipn k (map High data)))))
             (fun k => Some (window_fold Qmin
                               (firstn (Z.to_nat w) (skipn k (map Low data)))))).
  rewrite map_map. apply map_ext. intros [k b].
  unfold hi, lo, window_at. now rewrite !skipn_map, !firstn_map.
Qed.

(** The engine completes on every frame at least as long as the window,
    and what it returns is [swing_rows]. *)
Lemma engine_rows (data : list Bar) (w : Z) :
  (1 <= w <= Z.of_nat (length data))%Z ->
  indicator_engine data w = Completed (swing_rows data w).
Proof.
  intros Hw.
  assert (H2 : (0 <= w / 2)%Z) by (apply Z.div_pos; lia).
  assert (H3 : (0 <= (w - 1) / 2)%Z) by (apply Z.div_pos; lia).
  pose proof (EngineFacts.halves w ltac:(lia)) as E.
  pose proof (annotate_shape data w Hw) as Hrows. cbv zeta in Hrows.
  set (first := Z.to_nat (w / 2)) in *.
  set (count := (length data - Z.to_nat w + 1)%nat) in *.
  assert (Hfit : (first + count <= length data)%nat)
    by (unfold first, count; lia).
  assert (Hl2 : length (firstn count (skipn first data)) = count)
    by (apply firstn_length_le; rewrite length_skipn; lia).
  destruct (firstn count (skipn first data)) as [|b0 d2] eqn:Hd2;
    [simpl in Hl2; unfold count in Hl2; lia|].
  assert (Hcount : count = S (length d2)) by (simpl in Hl2; lia).
  rewrite Hcount in Hrows. cbn [seq combine map with_levels] in Hrows.
  unfold indicator_engine.
  destruct data as [|b data']; [simpl in Hw; lia|].
  set (data := b :: data') in *.
  destruct (Z.ltb_spec (Z.of_nat (length data)) w); [lia|].
  cbv zeta.
  assert (Hin : forall (col : Row -> option Q) v,
             col (with_levels b0
                    (Some (window_fold Qmax
                             (map High (window_at data (Z.to_nat w) 0))),
                     Some (window_fold Qmin
                             (map Low (window_at data (Z.to_nat w) 0)))))
             = Some v ->
             all_null (map col (annotate data w)) = false).
  { intros col v Hv. apply (all_null_false_in _ v).
    rewrite <- Hv. apply in_map. rewrite Hrows.
    apply in_or_app. right. now left. }
  rewrite (Hin rSwingHigh _ eq_refl), (Hin rSwingLow _ eq_refl),
    (Hin rFib38 _ eq_refl), (Hin rFib50 _ eq_refl), (Hin rFib61 _ eq_refl).
  cbn [orb]. f_equal.
  pose proof (annotate_shape data w Hw) as Hfull. cbv zeta in Hfull.
  fold first in Hfull. fold count in Hfull.
  rewrite Hfull. unfold dropna. rewrite !flat_map_app.
  fold (dropna (map (fun '(b1, swings) => with_levels b1 swings)
                  (combine (firstn first data)
                     (combine (repeat None first) (repeat None first))))).
  fold (dropna (map (fun '(b1, swings) => with_levels b1 swings)
                  (combine (skipn (first + count) data)
                     (combine (repeat None (length data - first - count))
                        (repeat None (length data - first - count)))))).
  rewrite !blank_rows_dropna. rewrite app_nil_r. cbn [app].
  fold (dropna (map (fun '(k, b1) =>
                       with_levels b1
                         (Some (window_fold Qmax
                                  (map High (window_at data (Z.to_nat w) k))),
                          Some (window_fold Qmin
                                  (map Low (window_at data (Z.to_nat w) k)))))
                  (combine (seq 0 count) (firstn count (skipn first data))))).
  rewrite (dropna_defined
             (fun k => window_fold Qmax
                         (map High (window_at data (Z.to_nat w) k)))
             (fun k => window_fold Qmin
                         (map Low (window_at data (Z.to_nat w) k)))).
  unfold swing_rows. fold first. fold count.
  apply map_ext. intros [k b1]. reflexivity.
Qed.

Lemma nth_error_combine {A B : Type} : forall (l : list A) (l' : list B) k,
  nth_error (combine l l') k
  = match nth_error l k, nth_error l' k with
    | Some a, Some b => Some (a, b)
    | _, _ => None
    end.
Proof.
  induction l as [|a l IH]; intros [|b l'] [|k]; simpl; trivial;
    try (destruct (nth_error l k); reflexivity).
Qed.

(** The [k]-th row of [swing_rows] is the bar at index
    [swing_length / 2 + k] with the window that starts at bar [k]. *)
Lemma swing_rows_nth (data : list Bar) (w : Z) (k : nat) (row : ABar) :
  nth_error (swing_rows data w) k = Some row ->
  (k < length data - Z.to_nat w + 1)%nat /\
  exists b,
    nth_error data (Z.to_nat (w / 2) + k) = Some b /\
    row = swing_row data (Z.to_nat w) k b.
Proof.
  unfold swing_rows. rewrite nth_error_map, nth_error_combine, nth_error_seq.
  rewrite nth_error_firstn, nth_error_skipn.
  destruct (Nat.ltb_spec k (length data - Z.to_nat w + 1)); [|discriminate].
  destruct (nth_error data (Z.to_nat (w / 2) + k)) as [b|]; [|discriminate].
  simpl. intros [= <-]. split; [assumption|]. now exists b.
Qed.

Lemma swing_rows_in (data : list Bar) (w : Z) (row : ABar) :
  In row (swing_rows data w) ->
  exists k b,
    (k < length data - Z.to_nat w + 1)%nat /\
    nth_error data (Z.to_nat (w / 2) + k) = Some b /\
    row = swing_row data (Z.to_nat w) k b.
Proof.
  intros Hin. apply In_nth_error in Hin. destruct Hin as [k Hk].
  apply swing_rows_nth in Hk. destruct Hk as [Hlt (b & Hb & ->)].
  now exists k, b.
Qed.

Lemma swing_rows_length (data : list Bar) (w : Z) :
  (1 <= w <= Z.of_nat (length data))%Z ->
  length (swing_rows data w) = (length data - Z.to_nat w + 1)%nat.
Proof.
  intros Hw. unfold swing_rows.
  assert (H2 : (0 <= w / 2)%Z) by (apply Z.div_pos; lia).
  assert (H3 : (0 <= (w - 1) / 2)%Z) by (apply Z.div_pos; lia).
  pose proof (EngineFacts.halves w ltac:(lia)) as E.
  rewrite length_map, length_combine, length_seq, length_firstn, length_skipn.
  lia.
Qed.

(** A bar sits inside the window of its own row. *)
Lemma own_bar_in_window (data : list Bar) (w : Z) (k : nat) (b : Bar) :
  (1 <= w)%Z ->
  nth_error data (Z.to_nat (w / 2) + k) = Some b ->
  In b (window_at data (Z.to_nat w) k).
Proof.
  intros Hw Hb. unfold window_at.
  apply (nth_error_In _ (Z.to_nat (w / 2))).
  rewrite nth_error_firstn, nth_error_skipn.
  assert (H2 : (0 <= w / 2)%Z) by (apply Z.div_pos; lia).
  assert (H3 : (0 <= (w - 1) / 2)%Z) by (apply Z.div_pos; lia).
  pose proof (EngineFacts.halves w ltac:(lia)) as E.
  destruct (Nat.ltb_spec (Z.to_nat (w / 2)) (Z.to_nat w)); [|lia].
  rewrite Nat.add_comm. exact Hb.
Qed.

Lemma window_fold_max_upper (xs : list Q) (y : Q) :
  In y xs -> y <= window_fold Qmax xs.
Proof.
  destruct xs as [|x rest]; [intros []|].
  intros H. now apply WindowFacts.fold_max_upper.
Qed.

Lemma window_fold_min_lower (xs : list Q) (y : Q) :
  In y xs -> window_fold Qmin xs <= y.
Proof.
  destruct xs as [|x rest]; [intros []|].
  intros H. now apply WindowFacts.fold_min_lower.
Qed.

Lemma window_fold_pick (agg : Q -> Q -> Q) (xs : list Q) :
  (forall x y, agg x y = x \/ agg x y = y) ->
  xs <> [] -> In (window_fold agg xs) xs.
Proof.
  intros Hpick Hne. destruct xs as [|x rest]; [congruence|].
  now apply fold_pick.
Qed.

(** What a completed engine returned. *)
Lemma engine_completed (data : list Bar) (w : Z) (rows : list ABar) :
  (1 <= w)%Z ->
  indicator_engine data w = Completed rows ->
  (w <= Z.of_nat (length data))%Z /\ rows = swing_rows data w.
Proof.
  intros Hw He.
  destruct (Z.ltb_spec (Z.of_nat (length data)) w) as [Hlt|Hge].
  - exfalso. unfold indicator_engine in He.
    destruct data; [discriminate|].
    destruct (Z.ltb_spec (Z.of_nat (length (b :: data))) w);
      [discriminate|lia].
  - split; [exact Hge|].
    rewrite engine_rows in He by lia. now injection He.
Qed.

(** X1.  For every swing length of at least 1 the engine stops in two
    cases only: on an empty frame ("no data") and on a non-empty frame
    shorter than the window ("dataset too small").  The two all-NaN checks
    of lines 80 and 96 never fire. *)
Theorem engine_stops_only_on_short_frames :
  forall data swing_length why,
    (1 <= swing_length)%Z ->
    indicator_engine data swing_length = Stopped why ->
    (why = NoData /\ data = []) \/
    (why = DatasetTooSmall /\ data <> [] /\
     (Z.of_nat (length data) < swing_length)%Z).
Proof.
  intros data w why Hw He.
  destruct data as [|b data]; [left; simpl in He; now injection He as <-|].
  right.
  destruct (Z.ltb_spec (Z.of_nat (length (b :: data))) w) as [Hlt|Hge].
  - unfold indicator_engine in He.
    destruct (Z.ltb_spec (Z.of_nat (length (b :: data))) w); [|lia].
    injection He as <-. repeat split; [discriminate|exact Hlt].
  - rewrite engine_rows in He by lia. discriminate.
Qed.

Lemma engine_stops_only_on_short_frames_witness :
  (DatasetTooSmall = NoData /\ five_bars = []) \/
  (DatasetTooSmall = DatasetTooSmall /\ five_bars <> [] /\
   (Z.of_nat (length five_bars) < 6)%Z).
Proof.
  apply (engine_stops_only_on_short_frames five_bars 6 DatasetTooSmall).
  - lia.
  - vm_compute. reflexivity.
Defined.

(** X2.  On a frame of [n] bars and a swing length [1 <= w <= n] the engine
    completes, and what it returns is the row-by-row description
    [swing_rows]: [n - w + 1] rows, the [k]-th being the bar at index
    [w / 2 + k] annotated from the [w] bars that start at bar [k]. *)
Theorem engine_completes_row_by_row :
  forall data swing_length,
    (1 <= swing_length <= Z.of_nat (length data))%Z ->
    indicator_engine data swing_length
    = Completed (swing_rows data swing_length) /\
    length (swing_rows data swing_length)
    = (length data - Z.to_nat swing_length + 1)%nat.
Proof.
  intros data w Hw. split.
  - now apply engine_rows.
  - now apply swing_rows_length.
Qed.

Lemma engine_completes_row_by_row_witness :
  indicator_engine rally 5 = Completed (swing_rows rally 5) /\
  length (swing_rows rally 5) = 6%nat.
Proof.
  apply (engine_completes_row_by_row rally 5). vm_compute.
  split; discriminate.
Defined.

Lemma window_full (data : list Bar) (w k : nat) :
  (k + w <= length data)%nat -> length (window_at data w k) = w.
Proof.
  intros H. unfold window_at. apply firstn_length_le.
  rewrite length_skipn. lia.
Qed.

(** X3.  In the frame the engine returns, the swing high of a row is the
    largest high and its swing low the smallest low of the [w] consecutive
    bars of its window, and each is the high (the low) of one of these
    bars; date, high, low and close of the row are those of the bar in the
    middle of the window. *)
Theorem swings_are_window_extrema :
  forall data swing_length rows k row,
    (1 <= swing_length)%Z ->
    indicator_engine data swing_length = Completed rows ->
    nth_error rows k = Some row ->
    let window := window_at data (Z.to_nat swing_length) k in
    length window = Z.to_nat swing_length /\
    (exists b,
        nth_error data (Z.to_nat (swing_length / 2) + k) = Some b /\
        In b window /\
        aDate row = Date b /\ aHigh row = High b /\
        aLow row = Low b /\ aClose row = Close b) /\
    (forall x, In x window ->
               High x <= aSwingHigh row /\ aSwingLow row <= Low x) /\
    (exists x, In x window /\ aSwingHigh row = High x) /\
    (exists y, In y window /\ aSwingLow row = Low y).
Proof.
  intros data w rows k row Hw He Hk window.
  destruct (engine_completed data w rows Hw He) as [Hle ->].
  apply swing_rows_nth in Hk. destruct Hk as [Hlt (b & Hb & ->)].
  assert (Hlen : length window = Z.to_nat w)
    by (apply window_full; lia).
  assert (Hne : window <> [])
    by (intros E; rewrite E in Hlen; simpl in Hlen; lia).
  split; [exact Hlen|]. split; [|split; [|split]].
  - exists b. split; [exact Hb|]. split; [now apply own_bar_in_window|].
    repeat split.
  - intros x Hx. simpl. split.
    + apply window_fold_max_upper. now apply in_map.
    + apply window_fold_min_lower. now apply in_map.
  - simpl. fold window.
    destruct (proj1 (in_map_iff High window _)
                (window_fold_pick Qmax (map High window) Qmax_pick
                   ltac:(destruct window; [congruence|discriminate])))
      as (x & Hx & Hin).
    exists x. split; [exact Hin|]. now symmetry.
  - simpl. fold window.
    destruct (proj1 (in_map_iff Low window _)
                (window_fold_pick Qmin (map Low window) Qmin_pick
                   ltac:(destruct window; [congruence|discriminate])))
      as (y & Hy & Hin).
    exists y. split; [exact Hin|]. now symmetry.
Qed.

Lemma swings_are_window_extrema_witness :
  exists row,
    nth_error rally_rows 2 = Some row /\
    (forall x, In x (window_at rally 5 2) ->
               High x <= aSwingHigh row /\ aSwingLow row <= Low x) /\
    (exists x, In x (window_at rally 5 2) /\ aSwingHigh row = High x) /\
    (exists y, In y (window_at rally 5 2) /\ aSwingLow row = Low y).
Proof.
  eexists. split; [reflexivity|].
  apply (swings_are_window_extrema rally 5 rally_rows 2 _
           ltac:(lia) ltac:(vm_compute; reflexivity) eq_refl).
Defined.

Lemma own_bar_bracket (data : list Bar) (w : Z) (row : ABar) :
  (1 <= w)%Z -> In row (swing_rows data w) ->
  aSwingLow row <= aLow row /\ aHigh row <= aSwingHigh row.
Proof.
  intros Hw Hin. apply swing_rows_in in Hin.
  destruct Hin as (k & b & Hk & Hb & ->). simpl.
  pose proof (own_bar_in_window data w k b Hw Hb) as Hown. split.
  - apply window_fold_min_lower. now apply in_map.
  - apply window_fold_max_upper. now apply in_map.
Qed.

(** X4.  Every row the engine returns lies between its own swing levels:
    its low is not below its swing low and its high is not above its swing
    high. *)
Theorem bar_within_its_swings :
  forall data swing_length rows row,
    (1 <= swing_length)%Z ->
    indicator_engine data swing_length = Completed rows ->
    In row rows ->
    aSwingLow row <= aLow row /\ aHigh row <= aSwingHigh row.
Proof.
  intros data w rows row Hw He Hin.
  destruct (engine_completed data w rows Hw He) as [_ ->].
  now apply (own_bar_bracket data w).
Qed.

Lemma bar_within_its_swings_witness :
  Forall (fun row => aSwingLow row <= aLow row /\ aHigh row <= aSwingHigh row)
    rally_rows.
Proof.
  apply Forall_forall. intros row.
  apply (bar_within_its_swings rally 5 rally_rows row).
  - lia.
  - vm_compute. reflexivity.
Defined.

(** X5.  If no bar of the frame has its low above its high, every row the
    engine returns has its swing low at or below its swing high, and the
    three levels are defined and lie in order between them:
    swingLow <= fib61 <= fib50 <= fib38 <= swingHigh. *)
Theorem levels_between_swings :
  forall data swing_length rows row,
    (1 <= swing_length)%Z ->
    (forall b, In b data -> Low b <= High b) ->
    indicator_engine data swing_length = Completed rows ->
    In row rows ->
    aSwingLow row <= aSwingHigh row /\
    exists f38 f61,
      aFib38 row = Some f38 /\ aFib61 row = Some f61 /\
      aSwingLow row <= f61 /\ f61 <= aFib50 row /\
      aFib50 row <= f38 /\ f38 <= aSwingHigh row.
Proof.
  intros data w rows row Hw Hbars He Hin.
  destruct (engine_completed data w rows Hw He) as [_ ->].
  destruct (own_bar_bracket data w row Hw Hin) as [Hlo Hhi].
  apply swing_rows_in in Hin. destruct Hin as (k & b & Hk & Hb & ->).
  simpl in *.
  pose proof (Hbars b (nth_error_In _ _ Hb)) as Hb'.
  set (h := window_fold Qmax (map High (window_at data (Z.to_nat w) k))) in *.
  set (l := window_fold Qmin (map Low (window_at data (Z.to_nat w) k))) in *.
  assert (Hlh : l <= h) by lra.
  split; [exact Hlh|].
  eexists. eexists. split; [reflexivity|]. split; [reflexivity|].
  repeat split; lra.
Qed.

Lemma rally_bars_well_formed : forall b, In b rally -> Low b <= High b.
Proof.
  intros b Hin. unfold rally in Hin. simpl in Hin.
  repeat (destruct Hin as [<- | Hin]; [vm_compute; discriminate|]).
  destruct Hin.
Qed.

Lemma levels_between_swings_witness :
  Forall
    (fun row =>
       aSwingLow row <= aSwingHigh row /\
       exists f38 f61,
         aFib38 row = Some f38 /\ aFib61 row = Some f61 /\
         aSwingLow row <= f61 /\ f61 <= aFib50 row /\
         aFib50 row <= f38 /\ f38 <= aSwingHigh row)
    rally_rows.
Proof.
  apply Forall_forall. intros row.
  apply (levels_between_swings rally 5 rally_rows row).
  - lia.
  - exact rally_bars_well_formed.
  - vm_compute. reflexivity.
Defined.

(** ** The trade log on every frame *)

Lemma snoc_split {A : Type} (l pre post : list A) (a t : A) :
  l ++ [a] = pre ++ t :: post ->
  (post = [] /\ pre = l /\ t = a) \/
  (exists post', post = post' ++ [a] /\ l = pre ++ t :: post').
Proof.
  intros H. destruct (exists_last (l := t :: post)) as (post' & z & E);
    [discriminate|].
  destruct post' as [|t' post'].
  - simpl in E. injection E as E1 E2. subst t post. left.
    apply app_inj_tail in H. destruct H as [-> ->]. now repeat split.
  - simpl in E. injection E as E1 E2. subst t' post. right.
    change (pre ++ t :: post' ++ [z]) with (pre ++ (t :: post') ++ [z]) in H.
    rewrite app_assoc in H. apply app_inj_tail in H.
    destruct H as [-> ->]. now exists post'.
Qed.

(** What the loop variables hold is what the last record shows. *)
Lemma state_is_last_record data sb rp : forall k,
  let st := state_before data sb rp k in
  account_balance st = last_of AccountBalance sb (transactions st) /\
  total_pnl st = last_of TotalPnL 0 (transactions st) /\
  total_pnl_percent st = last_of TotalPnLPercent 0 (transactions st).
Proof.
  induction k as [|k IH]; [repeat split|].
  cbv zeta in *. rewrite state_before_S.
  destruct (step_cases data rp (state_before data sb rp k) k)
    as [-> | (cur & j & ex & _ & _ & _ & _ & ->)]; [exact IH|].
  unfold last_of, close_position. simpl.
  rewrite !map_app. simpl. rewrite !last_last. repeat split.
Qed.

(** Every record is computed from the record before it, and its prices are
    a close and a swing high of the frame. *)
Lemma log_records data sb rp : forall k pre t post,
  transactions (state_before data sb rp k) = pre ++ t :: post ->
  follows sb rp pre t /\
  exists en ex,
    In en data /\ In ex data /\
    EntryPrice t = aClose en /\ ExitPrice t = aSwingHigh ex.
Proof.
  induction k as [|k IH]; intros pre t post Hlog.
  - rewrite state_before_0 in Hlog. simpl in Hlog.
    destruct pre; discriminate.
  - rewrite state_before_S in Hlog.
    destruct (step_cases data rp (state_before data sb rp k) k)
      as [E | (cur & j & ex & _ & Hc & _ & Hx & E)];
      rewrite E in Hlog; [now apply (IH pre t post)|].
    simpl in Hlog. apply snoc_split in Hlog.
    destruct Hlog as [(-> & -> & ->) | (post' & -> & Hlog)];
      [|now apply (IH pre t post')].
    destruct (state_is_last_record data sb rp k) as (Hb & Ht & Hp).
    cbv zeta in Hb, Ht, Hp. split.
    + unfold follows. simpl. rewrite <- Hb, <- Ht, <- Hp. repeat split.
    + exists cur, ex. simpl.
      split; [eapply nth_error_In; exact Hc|].
      split; [eapply nth_error_In; exact Hx|]. split; reflexivity.
Qed.

(** X6.  Through the whole run, every record of the table is computed from
    the record above it (from the starting balance and zero totals for the
    first): shares = riskPercent / 100 x previous balance / entry price,
    shares sold = shares bought, P/L = (exit - entry) x shares,
    P/L% = P/L / (entry x shares) x 100, and balance, total P/L and total
    P/L% are the previous ones plus this record's P/L, P/L and P/L%. *)
Theorem table_rows_chain :
  forall data starting_balance risk_percent before t after,
    transactions (backtest data starting_balance risk_percent)
    = before ++ t :: after ->
    follows starting_balance risk_percent before t.
Proof.
  intros data sb rp pre t post H. unfold backtest in H.
  exact (proj1 (log_records data sb rp _ pre t post H)).
Qed.

Lemma table_rows_chain_witness :
  exists t1 t2,
    transactions (backtest rally_rows 10000 5) = [t1; t2] /\
    follows 10000 5 [] t1 /\ follows 10000 5 [t1] t2.
Proof.
  destruct (transactions (backtest rally_rows 10000 5))
    as [|t1 [|t2 [|t3 l]]] eqn:E; try (vm_compute in E; discriminate).
  exists t1, t2. split; [reflexivity|]. split.
  - apply (table_rows_chain rally_rows 10000 5 [] t1 [t2]). exact E.
  - apply (table_rows_chain rally_rows 10000 5 [t1] t2 []). exact E.
Defined.

Lemma sum_of_snoc (f : Trade -> Q) (log : list Trade) (t : Trade) :
  sum_of f (log ++ [t]) == sum_of f log + f t.
Proof.
  induction log as [|a log IH]; simpl.
  - ring.
  - rewrite IH. ring.
Qed.

(** A column that grows by [g] from record to record holds the running sum
    of [g]. *)
Lemma chain_is_sum (f g : Trade -> Q) (start : Q) : forall log,
  (forall pre t post, log = pre ++ t :: post ->
                      f t = last_of f start pre + g t) ->
  last_of f start log == start + sum_of g log.
Proof.
  induction log as [|a log IH] using rev_ind; intros H.
  - unfold last_of. simpl. ring.
  - rewrite sum_of_snoc.
    assert (Ha : f a = last_of f start log + g a)
      by (apply (H log a []); reflexivity).
    unfold last_of at 1. rewrite map_app. simpl. rewrite last_last.
    rewrite Ha, IH; [ring|].
    intros pre t post E. apply (H pre t (post ++ [a])).
    rewrite E, <- app_assoc. reflexivity.
Qed.

Lemma chain_of_prefix data sb rp before t after :
  transactions (backtest data sb rp) = before ++ t :: after ->
  forall pre t' post,
    before ++ [t] = pre ++ t' :: post -> follows sb rp pre t'.
Proof.
  intros Hlog pre t' post E. unfold backtest in Hlog.
  apply snoc_split in E. destruct E as [(-> & -> & ->) | (post' & -> & ->)].
  - exact (proj1 (log_records data sb rp _ _ _ _ Hlog)).
  - rewrite <- app_assoc in Hlog. simpl in Hlog.
    exact (proj1 (log_records data sb rp _ _ _ _ Hlog)).
Qed.

(** X7.  The totals are plain running sums.  At the end of the run total
    P/L is the sum of the P/L column, total P/L% the sum of the P/L% column
    (the percentages are added, not compounded) and the balance is the
    starting balance plus the sum of the P/L column; in every record,
    "Total P/L" and "Total P/L (%)" are the sums of the two columns down to
    that record and "Account Balance" is the starting balance plus that
    "Total P/L". *)
Theorem totals_are_running_sums :
  forall data starting_balance risk_percent,
    let final := backtest data starting_balance risk_percent in
    total_pnl final == sum_of PnL (transactions final) /\
    total_pnl_percent final == sum_of PnLPercent (transactions final) /\
    account_balance final
    == starting_balance + sum_of PnL (transactions final) /\
    forall before t after,
      transactions final = before ++ t :: after ->
      TotalPnL t == sum_of PnL (before ++ [t]) /\
      TotalPnLPercent t == sum_of PnLPercent (before ++ [t]) /\
      AccountBalance t == starting_balance + TotalPnL t.
Proof.
  intros data sb rp final.
  destruct (state_is_last_record data sb rp (length data)) as (Hb & Ht & Hp).
  cbv zeta in Hb, Ht, Hp. fold (backtest data sb rp) in Hb, Ht, Hp.
  fold final in Hb, Ht, Hp.
  assert (Hall : forall pre t post,
             transactions final = pre ++ t :: post -> follows sb rp pre t).
  { intros pre t post E.
    exact (proj1 (log_records data sb rp _ pre t post E)). }
  split; [|split; [|split]].
  - rewrite Ht, (chain_is_sum TotalPnL PnL 0); [ring|].
    intros pre t post E. apply (Hall pre t post E).
  - rewrite Hp, (chain_is_sum TotalPnLPercent PnLPercent 0); [ring|].
    intros pre t post E. apply (Hall pre t post E).
  - rewrite Hb. apply (chain_is_sum AccountBalance PnL sb).
    intros pre t post E. apply (Hall pre t post E).
  - intros before t after E.
    pose proof (chain_of_prefix data sb rp before t after E) as Hpre.
    assert (E1 : TotalPnL t == sum_of PnL (before ++ [t])).
    { transitivity (last_of TotalPnL 0 (before ++ [t])).
      - unfold last_of. rewrite map_app. simpl. rewrite last_last.
        reflexivity.
      - rewrite (chain_is_sum TotalPnL PnL 0); [ring|].
        intros pre t' post E'. apply (Hpre pre t' post E'). }
    split; [exact E1|]. split.
    + transitivity (last_of TotalPnLPercent 0 (before ++ [t])).
      * unfold last_of. rewrite map_app. simpl. rewrite last_last.
        reflexivity.
      * rewrite (chain_is_sum TotalPnLPercent PnLPercent 0); [ring|].
        intros pre t' post E'. apply (Hpre pre t' post E').
    + rewrite E1.
      transitivity (last_of AccountBalance sb (before ++ [t])).
      * unfold last_of. rewrite map_app. simpl. rewrite last_last.
        reflexivity.
      * apply (chain_is_sum AccountBalance PnL sb).
        intros pre t' post E'. apply (Hpre pre t' post E').
Qed.

Lemma totals_are_running_sums_witness :
  total_pnl_percent (backtest rally_rows 10000 5)
  == sum_of PnLPercent (transactions (backtest rally_rows 10000 5)) /\
  exists t1 t2,
    transactions (backtest rally_rows 10000 5) = [t1; t2] /\
    TotalPnL t2 == sum_of PnL [t1; t2] /\
    TotalPnLPercent t2 == sum_of PnLPercent [t1; t2] /\
    AccountBalance t2 == 10000 + TotalPnL t2.
Proof.
  destruct (totals_are_running_sums rally_rows 10000 5) as (_ & H2 & _ & H4).
  split; [exact H2|].
  destruct (transactions (backtest rally_rows 10000 5))
    as [|t1 [|t2 [|t3 l]]] eqn:E; try (vm_compute in E; discriminate).
  exists t1, t2. split; [reflexivity|].
  apply (H4 [t1] t2 []). reflexivity.
Defined.

(** ** Money management *)

Lemma risk_fraction_range (rp : Q) :
  0 < rp -> rp <= 100 -> 0 < rp / 100 /\ rp / 100 <= 1.
Proof.
  intros H0 H1. unfold Qdiv.
  assert (E : / 100 == 1 # 100) by reflexivity.
  rewrite E. split; lra.
Qed.

(** One closed trade on positive prices with a risk fraction in (0, 1]
    leaves a positive balance. *)
Lemma close_keeps_positive (r bal e x : Q) :
  0 < r -> r <= 1 -> 0 < bal -> 0 < e -> 0 < x ->
  0 < (r * bal) / e /\ 0 < bal + (x - e) * ((r * bal) / e).
Proof.
  intros Hr0 Hr1 Hbal He Hx.
  assert (Hpos : 0 < r * bal) by nra.
  assert (Hs : 0 < (r * bal) / e).
  { apply Qlt_shift_div_l; [exact He|]. lra. }
  split; [exact Hs|].
  assert (Hes : e * ((r * bal) / e) == r * bal).
  { apply Qmult_div_r. intros E. rewrite E in He. lra. }
  set (s := (r * bal) / e) in *.
  assert (Hxs : 0 < x * s) by nra.
  assert (Hle : r * bal <= bal) by nra.
  assert (Eq : bal + (x - e) * s == bal + x * s - e * s) by ring.
  rewrite Eq, Hes. lra.
Qed.

Lemma positive_run data sb rp :
  0 < sb -> 0 < rp -> rp <= 100 -> positive_prices data ->
  forall k,
    0 < account_balance (state_before data sb rp k) /\
    Forall (fun t => 0 < EntryPrice t /\ 0 < ExitPrice t /\
                     0 < SharesBought t /\ 0 < AccountBalance t)
      (transactions (state_before data sb rp k)).
Proof.
  intros Hsb Hrp0 Hrp1 Hprices.
  destruct (risk_fraction_range rp Hrp0 Hrp1) as [Hr0 Hr1].
  induction k as [|k [IHb IHl]].
  - rewrite state_before_0. simpl. split; [exact Hsb|constructor].
  - rewrite state_before_S.
    destruct (step_cases data rp (state_before data sb rp k) k)
      as [-> | (cur & j & ex & _ & Hc & _ & Hx & ->)]; [now split|].
    destruct (Hprices cur (nth_error_In _ _ Hc)) as [Hcur _].
    destruct (Hprices ex (nth_error_In _ _ Hx)) as [_ Hex].
    destruct (close_keeps_positive (rp / 100)
                (account_balance (state_before data sb rp k))
                (aClose cur) (aSwingHigh ex) Hr0 Hr1 IHb Hcur Hex)
      as [Hs Hb].
    simpl. split; [exact Hb|].
    apply Forall_app. split; [exact IHl|].
    constructor; [|constructor]. simpl. repeat split; assumption.
Qed.

(** X8.  In exact arithmetic: with a positive starting balance, a risk
    percentage in (0, 100] and positive closes and swing highs, the account
    balance is positive after every trade and at the end of the run, and
    every position holds a positive number of shares. *)
Theorem balance_stays_positive :
  forall data starting_balance risk_percent,
    0 < starting_balance ->
    0 < risk_percent -> risk_percent <= 100 ->
    positive_prices data ->
    0 < account_balance (backtest data starting_balance risk_percent) /\
    Forall (fun t => 0 < SharesBought t /\ 0 < AccountBalance t)
      (transactions (backtest data starting_balance risk_percent)).
Proof.
  intros data sb rp Hsb Hrp0 Hrp1 Hprices. unfold backtest.
  destruct (positive_run data sb rp Hsb Hrp0 Hrp1 Hprices (length data))
    as [Hb Hl].
  split; [exact Hb|].
  eapply Forall_impl; [|exact Hl]. simpl. tauto.
Qed.

Lemma rally_rows_positive : positive_prices rally_rows.
Proof.
  intros b Hin. unfold rally_rows in Hin. simpl in Hin.
  repeat (destruct Hin as [<- | Hin];
          [split; vm_compute; reflexivity|]).
  destruct Hin.
Qed.

Lemma balance_stays_positive_witness :
  0 < account_balance (backtest rally_rows 10000 5) /\
  Forall (fun t => 0 < SharesBought t /\ 0 < AccountBalance t)
    (transactions (backtest rally_rows 10000 5)).
Proof.
  apply (balance_stays_positive rally_rows 10000 5).
  - vm_compute. reflexivity.
  - vm_compute. reflexivity.
  - vm_compute. discriminate.
  - exact rally_rows_positive.
Defined.

(** X9.  In exact arithmetic and under the same conditions, the percentage
    P/L of a record depends on its two prices only,
    P/L% = (exit / entry - 1) x 100, whatever the balance and the risk
    percentage, and the trade has a positive P/L exactly when its exit
    price is above its entry price. *)
Theorem percent_ignores_size :
  forall data starting_balance risk_percent t,
    0 < starting_balance ->
    0 < risk_percent -> risk_percent <= 100 ->
    positive_prices data ->
    In t (transactions (backtest data starting_balance risk_percent)) ->
    PnLPercent t == (ExitPrice t / EntryPrice t - 1) * 100 /\
    (0 < PnL t <-> EntryPrice t < ExitPrice t).
Proof.
  intros data sb rp t Hsb Hrp0 Hrp1 Hprices Hin.
  destruct (positive_run data sb rp Hsb Hrp0 Hrp1 Hprices (length data))
    as [_ Hl].
  fold (backtest data sb rp) in Hl.
  pose proof (proj1 (Forall_forall _ _) Hl t Hin) as (He & Hx & Hs & _).
  apply in_split in Hin. destruct Hin as (pre & post & Hlog).
  destruct (proj1 (log_records data sb rp _ pre t post Hlog))
    as (_ & _ & Hpnl & Hpct & _).
  assert (He0 : ~ EntryPrice t == 0) by (intros E; rewrite E in He; lra).
  assert (Hs0 : ~ SharesBought t == 0) by (intros E; rewrite E in Hs; lra).
  split.
  - rewrite Hpct, Hpnl. field. split; assumption.
  - rewrite Hpnl. split; intros H; nra.
Qed.

Lemma percent_ignores_size_witness :
  Forall
    (fun t =>
       PnLPercent t == (ExitPrice t / EntryPrice t - 1) * 100 /\
       (0 < PnL t <-> EntryPrice t < ExitPrice t))
    (transactions (backtest rally_rows 10000 5)).
Proof.
  apply Forall_forall. intros t.
  apply (percent_ignores_size rally_rows 10000 5 t).
  - vm_compute. reflexivity.
  - vm_compute. reflexivity.
  - vm_compute. discriminate.
  - exact rally_rows_positive.
Defined.

(** X10.  In exact arithmetic and under the same conditions, every trade
    multiplies the balance: the balance after a record is the balance
    before it times 1 + (riskPercent / 100) x (P/L% / 100).  The balance
    compounds while "Total P/L (%)" adds. *)
Theorem balance_compounds :
  forall data starting_balance risk_percent before t after,
    0 < starting_balance ->
    0 < risk_percent -> risk_percent <= 100 ->
    positive_prices data ->
    transactions (backtest data starting_balance risk_percent)
    = before ++ t :: after ->
    AccountBalance t
    == last_of AccountBalance starting_balance before
       * (1 + risk_percent / 100 * (PnLPercent t / 100)).
Proof.
  intros data sb rp pre t post Hsb Hrp0 Hrp1 Hprices Hlog.
  destruct (positive_run data sb rp Hsb Hrp0 Hrp1 Hprices (length data))
    as [_ Hl].
  fold (backtest data sb rp) in Hl.
  assert (Hin : In t (transactions (backtest data sb rp)))
    by (rewrite Hlog; apply in_or_app; right; now left).
  pose proof (proj1 (Forall_forall _ _) Hl t Hin) as (He & Hx & Hs & _).
  destruct (proj1 (log_records data sb rp _ pre t post Hlog))
    as (Hsh & _ & Hpnl & Hpct & Hbal & _).
  assert (He0 : ~ EntryPrice t == 0) by (intros E; rewrite E in He; lra).
  assert (Hs0 : ~ SharesBought t == 0) by (intros E; rewrite E in Hs; lra).
  rewrite Hbal, Hpct, Hpnl.
  set (prev := last_of AccountBalance sb pre) in *.
  assert (Hsize : SharesBought t * EntryPrice t == rp / 100 * prev).
  { rewrite Hsh. field. exact He0. }
  set (s := SharesBought t) in *. set (e := EntryPrice t) in *.
  set (x := ExitPrice t) in *.
  transitivity (prev + (x - e) * (s * e) / e); [field; exact He0|].
  rewrite Hsize. field. split; assumption.
Qed.

Lemma balance_compounds_witness :
  exists t1 t2,
    transactions (backtest rally_rows 10000 5) = [t1; t2] /\
    AccountBalance t2
    == AccountBalance t1 * (1 + 5 / 100 * (PnLPercent t2 / 100)).
Proof.
  destruct (transactions (backtest rally_rows 10000 5))
    as [|t1 [|t2 [|t3 l]]] eqn:E; try (vm_compute in E; discriminate).
  exists t1, t2. split; [reflexivity|].
  apply (balance_compounds rally_rows 10000 5 [t1] t2 []).
  - vm_compute. reflexivity.
  - vm_compute. reflexivity.
  - vm_compute. discriminate.
  - exact rally_rows_positive.
  - exact E.
Defined.

(** ** Which trades are recorded *)

Lemma entry_signal_in_range data i :
  entry_signal data i = true -> (1 <= i < length data)%nat.
Proof.
  intros H. apply entry_signal_true in H.
  destruct H as [Hi (cur & _ & Hc & _)]. split; [exact Hi|].
  apply nth_error_Some. unfold iloc in Hc. congruence.
Qed.

Lemma step_fill data rp st i :
  exists records,
    transactions (step data rp st i) = transactions st ++ records /\
    Forall2 (filled_at data) (fill_at data i) records.
Proof.
  unfold fill_at.
  destruct (entry_signal data i) eqn:Hs.
  - pose proof (entry_signal_in_range data i Hs) as Hr.
    destruct (iloc_in_range data i) as [cur Hc]; [lia|].
    destruct (find_exit data i) as [j|] eqn:Hf.
    + pose proof (proj1 (find_exit_some data i j) Hf) as (Hj & _ & _).
      destruct (iloc_in_range data j) as [ex Hx]; [lia|].
      rewrite (step_trade data rp st i cur j ex Hs Hc Hf Hx).
      eexists. split; [reflexivity|].
      constructor; [|constructor]. split; [exact Hj|].
      exists cur, ex. simpl. repeat split; trivial.
    + exists []. rewrite app_nil_r. split; [|constructor].
      unfold step.
      destruct (entry_at data rp (account_balance st) i); [|reflexivity].
      rewrite Hf. reflexivity.
  - exists []. rewrite app_nil_r. split; [|constructor].
    unfold step.
    rewrite (proj2 (entry_at_none data rp (account_balance st) i) Hs).
    reflexivity.
Qed.

Lemma log_fills data sb rp : forall k,
  Forall2 (filled_at data) (flat_map (fill_at data) (seq 0 k))
    (transactions (state_before data sb rp k)).
Proof.
  induction k as [|k IH]; [constructor|].
  rewrite state_before_S, seq_S, flat_map_app. simpl. rewrite app_nil_r.
  destruct (step_fill data rp (state_before data sb rp k) k)
    as (records & -> & Hrec).
  now apply Forall2_app.
Qed.

Lemma in_fills data i j :
  In (i, j) (fills data) <->
  entry_signal data i = true /\ find_exit data i = Some j.
Proof.
  unfold fills. rewrite in_flat_map. split.
  - intros (i' & _ & Hin). unfold fill_at in Hin.
    destruct (entry_signal data i') eqn:Hs; [|destruct Hin].
    destruct (find_exit data i') as [j'|] eqn:Hf; [|destruct Hin].
    destruct Hin as [[= <- <-] | []]. now split.
  - intros [Hs Hf]. exists i. split.
    + apply in_seq. pose proof (entry_signal_in_range data i Hs). lia.
    + unfold fill_at. rewrite Hs, Hf. now left.
Qed.

Lemma Forall2_same_length {A B : Type} (R : A -> B -> Prop) l l' :
  Forall2 R l l' -> length l = length l'.
Proof. induction 1; simpl; congruence. Qed.

(** X11.  The log holds exactly one record for each bar that gives the
    entry signal and is followed by a bar that gives the exit signal, in
    the order of the entry bars, each with the date and close of its entry
    bar and the date and swing high of the first exit bar after it; an
    entry with no exit bar after it leaves no record. *)
Theorem log_matches_fills :
  forall data starting_balance risk_percent,
    Forall2 (filled_at data) (fills data)
      (transactions (backtest data starting_balance risk_percent)) /\
    length (transactions (backtest data starting_balance risk_percent))
    = length (fills data) /\
    forall i j,
      In (i, j) (fills data) <->
      entry_signal data i = true /\ find_exit data i = Some j.
Proof.
  intros data sb rp.
  pose proof (log_fills data sb rp (length data)) as H.
  fold (fills data) in H. fold (backtest data sb rp) in H.
  split; [exact H|]. split.
  - symmetry. eapply Forall2_same_length. exact H.
  - intros i j. apply in_fills.
Qed.

Lemma log_matches_fills_witness :
  fills rally_rows = [(2, 5); (3, 5)]%nat /\
  length (transactions (backtest rally_rows 10000 5)) = 2%nat /\
  length (transactions (backtest open_ended_rows 10000 5)) = 0%nat.
Proof.
  destruct (log_matches_fills rally_rows 10000 5) as (_ & H1 & _).
  destruct (log_matches_fills open_ended_rows 10000 5) as (_ & H2 & _).
  split; [vm_compute; reflexivity|]. split.
  - rewrite H1. vm_compute. reflexivity.
  - rewrite H2. vm_compute. reflexivity.
Defined.

Lemma filled_at_signal data p t t' :
  filled_at data p t -> filled_at data p t' -> signal_part t = signal_part t'.
Proof.
  intros [_ (en & ex & He & Hx & H1 & H2 & H3 & H4)]
         [_ (en' & ex' & He' & Hx' & H1' & H2' & H3' & H4')].
  rewrite He in He'. rewrite Hx in Hx'.
  injection He' as <-. injection Hx' as <-.
  unfold signal_part. congruence.
Qed.

(** X12.  Which trades are taken, on which dates and at which prices does
    not depend on the starting balance or on the risk percentage: two runs
    on the same frame record the same entry dates, exit dates, entry prices
    and exit prices, in the same order. *)
Theorem signals_ignore_money :
  forall data starting_balance risk_percent starting_balance' risk_percent',
    map signal_part
      (transactions (backtest data starting_balance risk_percent))
    = map signal_part
        (transactions (backtest data starting_balance' risk_percent')).
Proof.
  intros data sb rp sb' rp'.
  pose proof (log_fills data sb rp (length data)) as H.
  pose proof (log_fills data sb' rp' (length data)) as H'.
  fold (backtest data sb rp) in H. fold (backtest data sb' rp') in H'.
  revert H'.
  generalize (transactions (backtest data sb' rp')) as log'.
  induction H as [|p t ps log Hpt _ IH]; intros log' H'.
  - inversion H'. reflexivity.
  - inversion H' as [|p' t' ps' log'' Hpt' Hrest]; subst.
    simpl. f_equal.
    + eapply filled_at_signal; eassumption.
    + now apply IH.
Qed.

Lemma short_frame_no_trade data sb rp :
  (length data < 3)%nat ->
  forall k, state_before data sb rp k = initial_state sb.
Proof.
  intros Hlen. induction k as [|k IH]; [reflexivity|].
  rewrite state_before_S, IH.
  destruct (step_fill data rp (initial_state sb) k) as (records & E & Hrec).
  assert (Hnone : fill_at data k = []).
  { unfold fill_at. destruct (entry_signal data k) eqn:Hs; [|reflexivity].
    destruct (find_exit data k) as [j|] eqn:Hf; [|reflexivity].
    pose proof (entry_signal_in_range data k Hs).
    apply find_exit_some in Hf. lia. }
  rewrite Hnone in Hrec. inversion Hrec; subst.
  destruct (step_cases data rp (initial_state sb) k)
    as [-> | (cur & j & ex & _ & _ & _ & _ & Ec)]; [reflexivity|].
  rewrite Ec in E. simpl in E. discriminate.
Qed.

(** X13.  A trade needs a bar before the entry bar and an exit bar after
    it: on a frame of fewer than [swing_length + 2] bars a completed run
    ends in its initial state, with an empty trade log. *)
Theorem short_frames_never_trade :
  forall data swing_length starting_balance risk_percent st,
    (1 <= swing_length)%Z ->
    (Z.of_nat (length data) < swing_length + 2)%Z ->
    run data swing_length starting_balance risk_percent = Completed st ->
    st = initial_state starting_balance.
Proof.
  intros data w sb rp st Hw Hlen Hrun. unfold run in Hrun.
  destruct (indicator_engine data w) as [why|rows] eqn:He; [discriminate|].
  injection Hrun as <-.
  destruct (engine_completed data w rows Hw He) as [Hle ->].
  unfold backtest. apply short_frame_no_trade.
  rewrite swing_rows_length by lia. lia.
Qed.

Lemma short_frames_never_trade_witness :
  run (firstn 6 rally) 5 10000 5 = Completed (initial_state 10000).
Proof.
  destruct (run (firstn 6 rally) 5 10000 5) as [why|st] eqn:E;
    [vm_compute in E; discriminate|].
  f_equal.
  apply (short_frames_never_trade (firstn 6 rally) 5 10000 5 st).
  - lia.
  - vm_compute. reflexivity.
  - exact E.
Defined.

(** ** Engine and simulator together *)

Lemma Forall2_in_r {A B : Type} (R : A -> B -> Prop) l l' y :
  Forall2 R l l' -> In y l' -> exists x, In x l /\ R x y.
Proof.
  induction 1 as [|x y' l l' Hxy _ IH]; intros Hin; [destruct Hin|].
  destruct Hin as [<- | Hin].
  - exists x. split; [now left|exact Hxy].
  - destruct (IH Hin) as (x' & Hx' & HR). exists x'. split; [now right|exact HR].
Qed.

(** X14.  In a completed run every exit is taken on a bar whose high is the
    highest high of its window: the exit price of each record equals the
    high of a bar of the frame dated as the exit, and its entry price is the
    close of a bar dated as the entry. *)
Theorem exit_price_is_bar_high :
  forall data swing_length starting_balance risk_percent st t,
    (1 <= swing_length)%Z ->
    run data swing_length starting_balance risk_percent = Completed st ->
    In t (transactions st) ->
    (exists b, In b data /\ Date b = ExitDate t /\ High b == ExitPrice t) /\
    (exists b, In b data /\ Date b = EntryDate t /\ Close b = EntryPrice t).
Proof.
  intros data w sb rp st t Hw Hrun Hin. unfold run in Hrun.
  destruct (indicator_engine data w) as [why|rows] eqn:He; [discriminate|].
  injection Hrun as <-.
  destruct (engine_completed data w rows Hw He) as [Hle ->].
  pose proof (log_fills (swing_rows data w) sb rp
                (length (swing_rows data w))) as Hlog.
  fold (fills (swing_rows data w)) in Hlog.
  fold (backtest (swing_rows data w) sb rp) in Hlog.
  destruct (Forall2_in_r _ _ _ t Hlog Hin) as ([i j] & Hfill & Hfilled).
  apply in_fills in Hfill. destruct Hfill as [_ Hfind].
  apply find_exit_some in Hfind. destruct Hfind as (_ & Hexit & _).
  destruct Hfilled as [_ (en & ex & Hen & Hex & Hd1 & Hd2 & Hp1 & Hp2)].
  simpl in Hen, Hex.
  apply exit_signal_true in Hexit.
  destruct Hexit as (ex' & Hex' & Hhit).
  rewrite Hex in Hex'. injection Hex' as <-.
  pose proof (nth_error_In _ _ Hex) as Hexin.
  pose proof (nth_error_In _ _ Hen) as Henin.
  destruct (own_bar_bracket data w ex Hw Hexin) as [_ Hhigh].
  apply swing_rows_in in Hexin. destruct Hexin as (k & b & _ & Hb & Eex).
  apply swing_rows_in in Henin. destruct Henin as (k' & b' & _ & Hb' & Een).
  split.
  - exists b. split; [eapply nth_error_In; exact Hb|].
    rewrite Hd2, Hp2. rewrite Eex in Hhit, Hhigh |- *. simpl in *.
    split; [reflexivity|]. lra.
  - exists b'. split; [eapply nth_error_In; exact Hb'|].
    rewrite Hd1, Hp1, Een. split; reflexivity.
Qed.

Lemma exit_price_is_bar_high_witness :
  Forall
    (fun t =>
       (exists b, In b rally /\ Date b = ExitDate t /\
                  High b == ExitPrice t) /\
       (exists b, In b rally /\ Date b = EntryDate t /\
                  Close b = EntryPrice t))
    (transactions (backtest rally_rows 10000 5)).
Proof.
  apply Forall_forall. intros t.
  apply (exit_price_is_bar_high rally 5 10000 5
           (backtest rally_rows 10000 5) t).
  - lia.
  - vm_compute. reflexivity.
Defined.

Lemma map_indexed {A B : Type} (g : A -> B) : forall (l : list A) start,
  map (fun p : nat * A => g (snd p)) (combine (seq start (length l)) l)
  = map g l.
Proof.
  induction l as [|a l IH]; intros start; [reflexivity|].
  simpl. f_equal. apply IH.
Qed.

Lemma swing_rows_column {B : Type} (col : ABar -> B) (raw : Bar -> B)
  (data : list Bar) (w : Z) :
  (forall k b, col (swing_row data (Z.to_nat w) k b) = raw b) ->
  (1 <= w <= Z.of_nat (length data))%Z ->
  map col (swing_rows data w)
  = firstn (length data - Z.to_nat w + 1)
      (skipn (Z.to_nat (w / 2)) (map raw data)).
Proof.
  intros Hcol Hw. unfold swing_rows.
  assert (H2 : (0 <= w / 2)%Z) by (apply Z.div_pos; lia).
  assert (H3 : (0 <= (w - 1) / 2)%Z) by (apply Z.div_pos; lia).
  pose proof (EngineFacts.halves w ltac:(lia)) as E.
  set (first := Z.to_nat (w / 2)). set (count := (length data - Z.to_nat w + 1)%nat).
  assert (Hl : length (firstn count (skipn first data)) = count)
    by (apply firstn_length_le; rewrite length_skipn; unfold first, count; lia).
  rewrite skipn_map, firstn_map.
  remember (firstn count (skipn first data)) as d2 eqn:Hd2. clear Hd2.
  rewrite <- Hl, map_map, <- (map_indexed raw d2 0).
  apply map_ext. intros [k b]. apply Hcol.
Qed.

(** X15.  The engine neither reorders nor alters the bars it keeps: the
    dates, highs, lows and closes of the returned rows are those of the
    [n - w + 1] consecutive bars that start at index [w / 2]; the first
    [w / 2] and the last [(w - 1) / 2] bars are dropped. *)
Theorem engine_keeps_a_slice :
  forall data swing_length rows,
    (1 <= swing_length)%Z ->
    indicator_engine data swing_length = Completed rows ->
    let first := Z.to_nat (swing_length / 2) in
    let count := (length data - Z.to_nat swing_length + 1)%nat in
    map aDate rows = firstn count (skipn first (map Date data)) /\
    map aHigh rows = firstn count (skipn first (map High data)) /\
    map aLow rows = firstn count (skipn first (map Low data)) /\
    map aClose rows = firstn count (skipn first (map Close data)) /\
    (first + count + Z.to_nat ((swing_length - 1) / 2) = length data)%nat.
Proof.
  intros data w rows Hw He first count.
  destruct (engine_completed data w rows Hw He) as [Hle ->].
  assert (Hr : (1 <= w <= Z.of_nat (length data))%Z) by lia.
  repeat split; try (apply swing_rows_column; [reflexivity|exact Hr]).
  assert (H2 : (0 <= w / 2)%Z) by (apply Z.div_pos; lia).
  assert (H3 : (0 <= (w - 1) / 2)%Z) by (apply Z.div_pos; lia).
  pose proof (EngineFacts.halves w ltac:(lia)) as E.
  unfold first, count. lia.
Qed.

Lemma engine_keeps_a_slice_witness :
  map aDate rally_rows = [3; 4; 5; 6; 7; 8]%Z /\
  map aClose rally_rows = firstn 6 (skipn 2 (map Close rally)).
Proof.
  destruct (engine_keeps_a_slice rally 5 rally_rows ltac:(lia)
              ltac:(vm_compute; reflexivity)) as (H1 & _ & _ & H4 & _).
  split; [rewrite H1; reflexivity|exact H4].
Defined.

Lemma swing_rows_ascending data w :
  dates_ascending data -> date_ascending (swing_rows data w).
Proof.
  intros Hasc a b x y Hab Ha Hb. unfold iloc in Ha, Hb.
  apply swing_rows_nth in Ha. destruct Ha as [_ (bx & Hbx & ->)].
  apply swing_rows_nth in Hb. destruct Hb as [_ (by' & Hby & ->)].
  simpl.
  apply (Hasc (Z.to_nat (w / 2) + a)%nat (Z.to_nat (w / 2) + b)%nat bx by');
    [lia | exact Hbx | exact Hby].
Qed.

Lemma later_entries_later_dates rows i en : forall ps log,
  date_ascending rows ->
  iloc rows i = Some en ->
  Forall2 (filled_at rows) ps log ->
  Forall (lt i) (map fst ps) ->
  Forall (Z.lt (aDate en)) (map EntryDate log).
Proof.
  intros ps log Hasc Hen H. induction H as [|p t ps log Hpt _ IH];
    intros Hlt; simpl; constructor.
  - inversion Hlt as [|? ? Hip _]; subst.
    destruct Hpt as [_ (en' & _ & Hen' & _ & -> & _)].
    exact (Hasc i (fst p) en en' Hip Hen Hen').
  - apply IH. now inversion Hlt.
Qed.

Lemma entry_dates_sorted rows : forall ps log,
  date_ascending rows ->
  Forall2 (filled_at rows) ps log ->
  StronglySorted lt (map fst ps) ->
  StronglySorted Z.lt (map EntryDate log).
Proof.
  intros ps log Hasc H. induction H as [|p t ps log Hpt Hrest IH];
    intros Hs; simpl; constructor.
  - apply IH. now apply StronglySorted_inv in Hs.
  - apply StronglySorted_inv in Hs. destruct Hs as [_ Hlt].
    destruct Hpt as [_ (en & _ & Hen & _ & -> & _)].
    eapply later_entries_later_dates; eassumption.
Qed.

(** X16.  On a raw frame sorted by strictly increasing date, a completed
    run records every trade with its entry date before its exit date, and
    the entry dates increase strictly down the table (the dates against
    which the chart is drawn). *)
Theorem dated_frames_give_dated_logs :
  forall data swing_length starting_balance risk_percent st,
    (1 <= swing_length)%Z ->
    dates_ascending data ->
    run data swing_length starting_balance risk_percent = Completed st ->
    Forall (fun t => (EntryDate t < ExitDate t)%Z) (transactions st) /\
    StronglySorted Z.lt (map EntryDate (transactions st)).
Proof.
  intros data w sb rp st Hw Hasc Hrun. unfold run in Hrun.
  destruct (indicator_engine data w) as [why|rows] eqn:He; [discriminate|].
  injection Hrun as <-.
  destruct (engine_completed data w rows Hw He) as [_ ->].
  pose proof (swing_rows_ascending data w Hasc) as Hrows.
  destruct (log_shape (swing_rows data w) sb rp (length (swing_rows data w)))
    as (ps & Hf & Hs & _).
  fold (backtest (swing_rows data w) sb rp) in Hf. split.
  - clear Hs. induction Hf as [|p t ps log Hpt _ IH]; constructor; trivial.
    eapply filled_dates; eassumption.
  - eapply entry_dates_sorted; eassumption.
Qed.

Lemma rally_dates_ascending : dates_ascending rally.
Proof.
  intros i j x y Hij Hi Hj.
  assert (Hlen : (j < 10)%nat).
  { change 10%nat with (length rally). apply nth_error_Some. congruence. }
  assert (Hdi : Date x = (Z.of_nat i + 1)%Z).
  { do 10 (destruct i as [|i];
           [vm_compute in Hi; injection Hi as <-; reflexivity|]). lia. }
  assert (Hdj : Date y = (Z.of_nat j + 1)%Z).
  { do 10 (destruct j as [|j];
           [vm_compute in Hj; injection Hj as <-; reflexivity|]). lia. }
  lia.
Qed.

Lemma dated_frames_give_dated_logs_witness :
  Forall (fun t => (EntryDate t < ExitDate t)%Z)
    (transactions (backtest rally_rows 10000 5)) /\
  StronglySorted Z.lt
    (map EntryDate (transactions (backtest rally_rows 10000 5))).
Proof.
  apply (dated_frames_give_dated_logs rally 5 10000 5).
  - lia.
  - exact rally_dates_ascending.
  - vm_compute. reflexivity.
Defined.

(** ** Column labels *)

Module FrameFacts.

Import Frame.

Lemma has_column_in labels col :
  has_column labels col = true <-> In col labels.
Proof.
  unfold has_column. rewrite existsb_exists. split.
  - intros (c & Hin & E). apply String.eqb_eq in E. now subst.
  - intros Hin. exists col. split; [exact Hin|apply String.eqb_refl].
Qed.

Lemma in_rename_close labels :
  In "Close"%string (rename labels) <->
  In "Close"%string labels \/ In "Adj Close"%string labels.
Proof.
  unfold rename. induction labels as [|c labels IH]; simpl; [tauto|].
  destruct (String.eqb_spec c "Adj Close") as [->|Hne].
  - split; [intros _; right; now left|intros _; now left].
  - rewrite IH. split.
    + intros [H | [H | H]]; auto.
    + intros [[H | H] | [H | H]]; auto. congruence.
Qed.

Lemma in_rename_other labels col :
  col <> "Adj Close"%string -> col <> "Close"%string ->
  (In col (rename labels) <-> In col labels).
Proof.
  intros H1 H2. unfold rename.
  induction labels as [|c labels IH]; simpl; [tauto|].
  destruct (String.eqb_spec c "Adj Close") as [->|Hne]; rewrite IH.
  - split; intros [H | H]; auto; congruence.
  - tauto.
Qed.

Lemma rename_no_adjusted labels : ~ In "Adj Close"%string (rename labels).
Proof.
  unfold rename. induction labels as [|c labels IH]; simpl; [tauto|].
  intros [H | H]; [|now apply IH].
  destruct (String.eqb_spec c "Adj Close"); [discriminate|congruence].
Qed.

End FrameFacts.

(** X17.  Renaming turns every "Adj Close" label into "Close" and touches
    nothing else: afterwards no column is called "Adj Close", there is a
    "Close" column exactly when there was a "Close" or an "Adj Close"
    column, every other label is present exactly when it was, the number
    of columns is unchanged, and renaming twice changes nothing more. *)
Theorem rename_replaces_adjusted_close :
  forall labels,
    ~ In "Adj Close"%string (Frame.rename labels) /\
    (In "Close"%string (Frame.rename labels) <->
     In "Close"%string labels \/ In "Adj Close"%string labels) /\
    (forall col, col <> "Adj Close"%string -> col <> "Close"%string ->
                 (In col (Frame.rename labels) <-> In col labels)) /\
    length (Frame.rename labels) = length labels /\
    Frame.rename (Frame.rename labels) = Frame.rename labels.
Proof.
  intros labels.
  split; [apply FrameFacts.rename_no_adjusted|].
  split; [apply FrameFacts.in_rename_close|].
  split; [intros col; apply FrameFacts.in_rename_other|].
  split; [apply length_map|].
  unfold Frame.rename. rewrite map_map. apply map_ext. intros c.
  destruct (String.eqb_spec c "Adj Close"); [reflexivity|].
  destruct (String.eqb_spec c "Adj Close"); [contradiction|reflexivity].
Qed.

Lemma rename_counts_close labels :
  Frame.count_label (Frame.rename labels) "Close"%string
  = (Frame.count_label labels "Close"%string
     + Frame.count_label labels "Adj Close"%string)%nat.
Proof.
  unfold Frame.count_label, Frame.rename.
  induction labels as [|c labels IH]; [reflexivity|].
  cbn [map count_occ].
  destruct (String.eqb_spec c "Adj Close"%string) as [->|Hne].
  - destruct (string_dec "Close"%string "Close"%string) as [_|H]; [|congruence].
    destruct (string_dec "Adj Close"%string "Close"%string) as [H|_]; [discriminate|].
    destruct (string_dec "Adj Close"%string "Adj Close"%string) as [_|H]; [|congruence].
    rewrite IH. lia.
  - destruct (string_dec c "Adj Close"%string) as [H|_]; [congruence|].
    destruct (string_dec c "Close"%string); rewrite IH; lia.
Qed.

(** X18.  Lines 38-58 on the labels of the fetched frame, plain or
    two-level, its row count, and the name under which the index becomes
    a column.  The insertion of line 45 raises exactly when a column
    already bears the index name; otherwise a frame without rows stops on
    "no data"; otherwise the column check passes exactly when there is a
    "High" and a "Low" column and a "Close" or an "Adj Close" column (the
    index column counts), and when it does not pass, the column reported
    as missing is the first one lacking in the order High, Low, Close.
    Passing does not make the labels unique: after the rename there are as
    many "Close" columns as there were "Close" and "Adj Close" columns
    together, so a frame that has both passes the check with two "Close"
    columns. *)
Theorem column_check_outcome :
  forall index_name columns rows,
    let labels := index_name :: Frame.flatten columns in
    let has col := In col labels in
    match Frame.validate index_name columns rows with
    | Frame.InsertRaised => In index_name (Frame.flatten columns)
    | Frame.EmptyFrame =>
        ~ In index_name (Frame.flatten columns) /\ rows = 0%nat
    | Frame.ColumnsOk =>
        ~ In index_name (Frame.flatten columns) /\ rows <> 0%nat /\
        has "High"%string /\ has "Low"%string /\
        (has "Close"%string \/ has "Adj Close"%string) /\
        Frame.count_label (Frame.rename labels) "Close"%string
        = (Frame.count_label labels "Close"%string
           + Frame.count_label labels "Adj Close"%string)%nat
    | Frame.MissingColumn missing =>
        ~ In index_name (Frame.flatten columns) /\ rows <> 0%nat /\
        ((missing = "High"%string /\ ~ has "High"%string) \/
         (missing = "Low"%string /\ has "High"%string /\
          ~ has "Low"%string) \/
         (missing = "Close"%string /\ has "High"%string /\
          has "Low"%string /\ ~ has "Close"%string /\
          ~ has "Adj Close"%string))
    end.
Proof.
  intros idx columns rows labels has.
  unfold Frame.validate, Frame.reset_index, Frame.missing_column.
  destruct (Frame.has_column (Frame.flatten columns) idx) eqn:Eidx.
  { now apply FrameFacts.has_column_in. }
  assert (Hidx : ~ In idx (Frame.flatten columns)).
  { intros H. apply FrameFacts.has_column_in in H. congruence. }
  destruct (Nat.eqb_spec rows 0) as [Hrows|Hrows]; [now split|].
  pose proof (rename_counts_close labels) as Hcount.
  unfold has. clear has. fold labels.
  remember labels as ls eqn:Hls. clear Hls labels.
  set (has := fun col : string => In col ls).
  change (In "High"%string ls) with (has "High"%string).
  change (In "Low"%string ls) with (has "Low"%string).
  change (In "Close"%string ls) with (has "Close"%string).
  change (In "Adj Close"%string ls) with (has "Adj Close"%string).
  assert (HH : Frame.has_column (Frame.rename ls) "High" = true
               <-> has "High"%string).
  { rewrite FrameFacts.has_column_in.
    apply FrameFacts.in_rename_other; discriminate. }
  assert (HL : Frame.has_column (Frame.rename ls) "Low" = true
               <-> has "Low"%string).
  { rewrite FrameFacts.has_column_in.
    apply FrameFacts.in_rename_other; discriminate. }
  assert (HC : Frame.has_column (Frame.rename ls) "Close" = true
               <-> has "Close"%string \/ has "Adj Close"%string).
  { rewrite FrameFacts.has_column_in. apply FrameFacts.in_rename_close. }
  unfold Frame.required_columns. simpl find.
  destruct (Frame.has_column (Frame.rename ls) "High") eqn:EH; simpl.
  - destruct (Frame.has_column (Frame.rename ls) "Low") eqn:EL; simpl.
    + destruct (Frame.has_column (Frame.rename ls) "Close") eqn:EC; simpl.
      * split; [exact Hidx|]. split; [exact Hrows|].
        split; [now apply HH|]. split; [now apply HL|].
        split; [now apply HC|exact Hcount].
      * split; [exact Hidx|]. split; [exact Hrows|].
        right. right. split; [reflexivity|].
        split; [now apply HH|]. split; [now apply HL|].
        split; intros H; assert (false = true) by (apply HC; tauto);
          discriminate.
    + split; [exact Hidx|]. split; [exact Hrows|].
      right. left. split; [reflexivity|].
      split; [now apply HH|].
      intros H. apply HL in H. discriminate.
  - split; [exact Hidx|]. split; [exact Hrows|].
    left. split; [reflexivity|].
    intros H. apply HH in H. discriminate.
Qed.

(** A frame with both a "Close" and an "Adj Close" column passes the check
    and is left with two "Close" columns. *)
Remark both_close_columns_pass :
  Frame.validate "Date"%string
    (Frame.Plain
       ["Adj Close"; "Close"; "High"; "Low"; "Open"; "Volume"]%string)
    250
  = Frame.ColumnsOk /\
  Frame.count_label
    (Frame.rename
       ["Date"; "Adj Close"; "Close"; "High"; "Low"; "Open"; "Volume"]%string)
    "Close"%string = 2%nat.
Proof. split; reflexivity. Qed.

(** ** The page after the loop *)

(** X19.  The page shows the "no transactions" warning exactly when no
    entry bar of the frame has an exit bar after it.  Otherwise the table
    is the trade log, both curves are drawn against the same entry dates,
    the balance curve is the P/L curve raised by the starting balance, the
    curves end on the ending balance and the total P/L of the summary, and
    the ending balance of the summary is the starting balance plus the
    total P/L. *)
Theorem report_is_consistent :
  forall data starting_balance risk_percent,
    match report starting_balance
            (backtest data starting_balance risk_percent) with
    | NoTransactions => fills data = []
    | Results table pnl_curve balance_curve (starting, ending, total, _) =>
        fills data <> [] /\
        table = transactions (backtest data starting_balance risk_percent) /\
        map fst pnl_curve = map EntryDate table /\
        map fst balance_curve = map EntryDate table /\
        Forall2 (fun p b => snd b == starting_balance + snd p)
          pnl_curve balance_curve /\
        last (map snd balance_curve) starting_balance = ending /\
        last (map snd pnl_curve) 0 = total /\
        starting = starting_balance /\
        ending == starting_balance + total
    end.
Proof.
  intros data sb rp.
  pose proof (log_fills data sb rp (length data)) as Hlog.
  fold (fills data) in Hlog. fold (backtest data sb rp) in Hlog.
  destruct (state_is_last_record data sb rp (length data)) as (Hb & Ht & _).
  cbv zeta in Hb, Ht. fold (backtest data sb rp) in Hb, Ht.
  pose proof (balance_is_start_plus_total data sb rp (length data)) as Hcons.
  fold (backtest data sb rp) in Hcons.
  assert (Hrows : forall pre t post,
             transactions (backtest data sb rp) = pre ++ t :: post ->
             AccountBalance t == sb + TotalPnL t).
  { intros pre t post E.
    destruct (proj1 (log_records data sb rp _ pre t post E))
      as (_ & _ & _ & _ & HA & HT & _).
    rewrite HA, HT.
    assert (Hprev : last_of AccountBalance sb pre
                    == sb + last_of TotalPnL 0 pre).
    { rewrite (chain_is_sum AccountBalance PnL sb),
        (chain_is_sum TotalPnL PnL 0); [ring| |].
      - intros pre' t' post' E'.
        apply (proj1 (log_records data sb rp (length data) pre' t'
                        (post' ++ t :: post)
                        ltac:(unfold backtest in E; rewrite E, E',
                              <- app_assoc; reflexivity))).
      - intros pre' t' post' E'.
        apply (proj1 (log_records data sb rp (length data) pre' t'
                        (post' ++ t :: post)
                        ltac:(unfold backtest in E; rewrite E, E',
                              <- app_assoc; reflexivity))). }
    rewrite Hprev. ring. }
  unfold report.
  destruct (transactions (backtest data sb rp)) as [|t0 log] eqn:E.
  - inversion Hlog. reflexivity.
  - split; [intros Hnil; rewrite Hnil in Hlog; inversion Hlog|].
    split; [reflexivity|].
    split; [now rewrite map_map|]. split; [now rewrite map_map|].
    split.
    { assert (Hall : forall pre post, t0 :: log = pre ++ post ->
                Forall2 (fun p b => snd b == sb + snd p)
                  (map (fun t => (EntryDate t, TotalPnL t)) post)
                  (map (fun t => (EntryDate t, AccountBalance t)) post)).
      { intros pre post. revert pre.
        induction post as [|t post IH]; intros pre Hsplit; simpl;
          constructor.
        - simpl. apply (Hrows pre t post). exact Hsplit.
        - apply (IH (pre ++ [t])). rewrite <- app_assoc. exact Hsplit. }
      apply (Hall [] (t0 :: log)). reflexivity. }
    split; [rewrite map_map; exact (eq_sym Hb)|].
    split; [rewrite map_map; exact (eq_sym Ht)|].
    split; [reflexivity|exact Hcons].
Qed.
